(** * Form discovery, input synthesis and batch coordination

    A shallow embedding of [form_automater.py] (mapping store, catalog
    extraction, input synthesis, form filling) and of the result-collection
    loop of [app.py], with the properties stated about them.

    Conventions of the embedding.
    - A Python [dict] is an association list in insertion order: assigning an
      existing key replaces the value in place, a new key goes to the end.
    - Python [str] values are [string]s holding the UTF-8 bytes. The source
      only searches for ASCII patterns (and one fixed CJK word), and UTF-8 is
      self-synchronising, so byte-wise search and ASCII lower-casing agree
      with [in] and [str.lower()] on every test the source performs.
    - Code that may raise returns an [outcome]. *)

From Stdlib Require Import List String Ascii Bool Arith NArith Lia.
Import ListNotations.
Open Scope string_scope.
Open Scope list_scope.

(* ------------------------------------------------------------------ *)
(** ** Exceptions *)

Inductive exn : Type :=
| KeyError (key : string)
| TypeError
| NameError (name : string)
| TimeoutError
| DriverError (msg : string)
| WorkerError (msg : string).

Inductive outcome (A : Type) : Type :=
| Ok (a : A)
| Raise (e : exn).
Arguments Ok {A} a.
Arguments Raise {A} e.

Definition bind {A B : Type} (m : outcome A) (k : A -> outcome B) : outcome B :=
  match m with
  | Ok a => k a
  | Raise e => Raise e
  end.

Notation "x <- m ;; k" := (bind m (fun x => k))
  (at level 61, m at next level, right associativity).

(* ------------------------------------------------------------------ *)
(** ** Dictionaries in insertion order *)

Section Dict.
Context {K V : Type}.
Variable eqb : K -> K -> bool.

Fixpoint dict_get (k : K) (d : list (K * V)) : option V :=
  match d with
  | [] => None
  | (k', v) :: rest => if eqb k k' then Some v else dict_get k rest
  end.

Definition dict_mem (k : K) (d : list (K * V)) : bool :=
  match dict_get k d with Some _ => true | None => false end.

(** [d[k] = v] *)
Fixpoint dict_set (k : K) (v : V) (d : list (K * V)) : list (K * V) :=
  match d with
  | [] => [(k, v)]
  | (k', v') :: rest =>
      if eqb k k' then (k', v) :: rest else (k', v') :: dict_set k v rest
  end.

(** [del d[k]] for a key that is present: no entry for [k] is left. *)
Definition dict_del (k : K) (d : list (K * V)) : list (K * V) :=
  filter (fun kv => negb (eqb k (fst kv))) d.

(** [d.update(other)] *)
Definition dict_update (d other : list (K * V)) : list (K * V) :=
  fold_left (fun acc kv => dict_set (fst kv) (snd kv) acc) other d.
End Dict.

(** Keys of a catalog: a field name, or Python's [None]. *)
Definition pykey := option string.

Definition pykey_eqb (a b : pykey) : bool :=
  match a, b with
  | Some x, Some y => String.eqb x y
  | None, None => true
  | _, _ => false
  end.

(** Truthiness of an optional string: [None] and [''] are falsy. *)
Definition truthy_str (o : option string) : bool :=
  match o with
  | Some (String _ _) => true
  | _ => false
  end.

(* ------------------------------------------------------------------ *)
(** ** Strings *)

Definition lower_ascii (c : ascii) : ascii :=
  let n := nat_of_ascii c in
  if (Nat.leb 65 n && Nat.leb n 90)%bool then ascii_of_nat (n + 32) else c.

Fixpoint lower (s : string) : string :=
  match s with
  | EmptyString => EmptyString
  | String c r => String (lower_ascii c) (lower r)
  end.

(** [pat in s] *)
Fixpoint contains (pat s : string) : bool :=
  if prefix pat s then true
  else match s with
       | EmptyString => false
       | String _ r => contains pat r
       end.

(** [sep.join(parts)] *)
Fixpoint join (sep : string) (parts : list string) : string :=
  match parts with
  | [] => EmptyString
  | [p] => p
  | p :: rest => (p ++ sep ++ join sep rest)%string
  end.

(* ------------------------------------------------------------------ *)
(** ** Values decoded from JSON *)

(** A value of the generated JSON object. [JOther] stands for numbers,
    arrays and nested objects; it carries what [str()] prints for the value
    and its truthiness, the only two things the source observes of them. *)
Inductive jvalue : Type :=
| JStr (s : string)
| JBool (b : bool)
| JNull
| JOther (text : string) (truth : bool).

Definition py_str_bool (b : bool) : string := if b then "True" else "False".

(** [bool(v)] *)
Definition truthy (v : jvalue) : bool :=
  match v with
  | JStr s => truthy_str (Some s)
  | JBool b => b
  | JNull => false
  | JOther _ t => t
  end.

(** [isinstance(v, bool)] *)
Definition is_bool (v : jvalue) : bool :=
  match v with JBool _ => true | _ => false end.

(** [opt != v] for an option entry of the catalog ([None] when a radio
    button has no [value] attribute). *)
Definition py_ne (opt : option string) (v : jvalue) : bool :=
  match opt, v with
  | Some s, JStr s' => negb (String.eqb s s')
  | None, JNull => false
  | _, _ => true
  end.

(* ------------------------------------------------------------------ *)
(** ** Mapping store: [load_input_mappings], [save_input_mapping] *)

(** One record of the store: the ten columns of the header, each a cell of
    text. It is what [csv.DictWriter] receives for a line, and what the loop
    of [load_input_mappings] takes from a row that [csv.DictReader]
    delivers. *)
Record csv_row : Type := {
  c_id : string;
  c_company_name : string;
  c_company_id : string;
  c_type : string;
  c_name : string;
  c_option : string;
  c_value : string;
  c_required : string;
  c_max_length : string;
  c_placeholder : string
}.

(** What the reader delivers to the loop of [load_input_mappings]: [None]
    when no file exists, otherwise the data rows below the header, oldest
    first. *)
Definition store_file := option (list csv_row).

(** The [field_info] dictionary built per row by [load_input_mappings]. *)
Record mapping_record : Type := {
  m_company_id : string;
  m_type : string;
  m_name : string;
  m_option : string;
  m_value : string;
  m_required : bool;
  m_max_length : string;
  m_placeholder : string
}.

Definition mappings := list (string * list mapping_record).

Definition field_info_of_row (row : csv_row) : mapping_record :=
  {| m_company_id := c_company_id row;
     m_type := c_type row;
     m_name := c_name row;
     m_option := c_option row;
     m_value := c_value row;
     m_required := String.eqb (lower (c_required row)) "true";
     m_max_length := c_max_length row;
     m_placeholder := c_placeholder row |}.

(** Body of the [for row in reader] loop. *)
Definition load_row (ms : mappings) (row : csv_row) : mappings :=
  let company_name := c_company_name row in
  let ms1 :=
    if dict_mem String.eqb company_name ms then ms
    else dict_set String.eqb company_name [] ms in
  match dict_get String.eqb company_name ms1 with
  | Some records =>
      dict_set String.eqb company_name (records ++ [field_info_of_row row]) ms1
  | None => ms1
  end.

Definition load_input_mappings (file : store_file) : mappings :=
  match file with
  | None => []
  | Some rows => fold_left load_row rows []
  end.

(** One element of [generate_item]. *)
Record gen_item : Type := {
  g_type : string;
  g_name : string;
  g_option : string;
  g_value : jvalue;
  g_required : bool;
  g_max_length : option string;
  g_placeholder : option string
}.

(** The text the csv writer puts in a cell: a string as it is, [None] as the
    empty cell, anything else through [str()]. *)
Definition csv_cell (v : jvalue) : string :=
  match v with
  | JStr s => s
  | JBool b => py_str_bool b
  | JNull => EmptyString
  | JOther text _ => text
  end.

(** [x if x else ''] on an optional attribute. *)
Definition or_empty (o : option string) : string :=
  match o with Some s => s | None => EmptyString end.

Definition row_of_item (user_id company_id company_name : string)
    (field_info : gen_item) : csv_row :=
  {| c_id := user_id;
     c_company_name := company_name;
     c_company_id := company_id;
     c_type := g_type field_info;
     c_name := g_name field_info;
     c_option := g_option field_info;
     c_value := csv_cell (g_value field_info);
     c_required := py_str_bool (g_required field_info);
     c_max_length := or_empty (g_max_length field_info);
     c_placeholder := or_empty (g_placeholder field_info) |}.

(** The file at [csv_file_path] as the csv writer leaves it: [None] when no
    file exists, otherwise its lines in order, the header line included
    when there is one, each line a record of ten cells holding the text that
    was written. An existing empty file is [Some []]. *)
Definition disk_file := option (list csv_row).

(** The line written by [writer.writeheader()]. *)
Definition header_line : csv_row :=
  {| c_id := "id"; c_company_name := "company-name";
     c_company_id := "company-id"; c_type := "type"; c_name := "name";
     c_option := "option"; c_value := "value"; c_required := "required";
     c_max_length := "max_length"; c_placeholder := "placeholder" |}.


(** *** Reading the file back: [open] and [csv.DictReader] *)

Definition cr : ascii := "013".
Definition lf : ascii := "010".

(** The file is written with [newline=''] and read without it, so on
    reading every CR LF and every lone CR of the text, also inside a quoted
    cell, arrives as LF. *)
Fixpoint universal_newlines (s : string) : string :=
  match s with
  | EmptyString => EmptyString
  | String c r =>
      if Ascii.eqb c cr then
        String lf
          (match r with
           | String d r' =>
               if Ascii.eqb d lf then universal_newlines r'
               else universal_newlines r
           | EmptyString => EmptyString
           end)
      else String c (universal_newlines r)
  end.

(** A continuation byte of UTF-8. *)
Definition is_continuation (c : ascii) : bool :=
  let n := nat_of_ascii c in Nat.leb 128 n && Nat.leb n 191.

(** The number of characters of a text held as UTF-8 bytes. *)
Fixpoint code_points (s : string) : N :=
  match s with
  | EmptyString => 0%N
  | String c r =>
      if is_continuation c then code_points r else N.succ (code_points r)
  end.

(** [csv.field_size_limit()], which the source leaves at its default. *)
Definition field_limit : N := 131072%N.

Definition cells (row : csv_row) : list string :=
  [c_id row; c_company_name row; c_company_id row; c_type row; c_name row;
   c_option row; c_value row; c_required row; c_max_length row;
   c_placeholder row].

(** No cell of the line, as it arrives, is longer than the limit. *)
Definition within_limit (line : csv_row) : bool :=
  forallb (fun cell => N.leb (code_points (universal_newlines cell)) field_limit)
    (cells line).

Inductive read_error : Type :=
| FieldTooLarge
| MissingColumn (key : string).

(** What reading ends in: a value, or the exception that leaves
    [load_input_mappings] ([_csv.Error] for a cell over the limit,
    [KeyError] for a column the loop indexes and the header lacks). *)
Inductive read_result (A : Type) : Type :=
| Delivered (a : A)
| ReadFails (e : read_error).
Arguments Delivered {A} a.
Arguments ReadFails {A} e.

(** The cells the reader parses from one line. *)
Definition read_line (line : csv_row) : read_result (list string) :=
  if within_limit line then Delivered (map universal_newlines (cells line))
  else ReadFails FieldTooLarge.

(** [dict(zip(fieldnames, row))[key]]: the cell under the last field name
    equal to [key]. *)
Fixpoint zip_lookup (key : string) (fieldnames row : list string) : option string :=
  match fieldnames, row with
  | f :: fs, c :: cs =>
      match zip_lookup key fs cs with
      | Some v => Some v
      | None => if String.eqb key f then Some c else None
      end
  | _, _ => None
  end.

(** The cells the loop of [load_input_mappings] takes from the dictionary of
    one row, in the order it takes them: [row[key]] raises [KeyError] for a
    missing column, [row.get(key, '')] gives the empty text. The column
    [id] is not read by the loop. *)
Definition deliver_row (fieldnames row : list string) : read_result csv_row :=
  let get key := zip_lookup key fieldnames row in
  match get "company-name" with
  | None => ReadFails (MissingColumn "company-name")
  | Some company_name =>
  match get "company-id" with
  | None => ReadFails (MissingColumn "company-id")
  | Some company_id =>
  match get "type" with
  | None => ReadFails (MissingColumn "type")
  | Some type =>
  match get "name" with
  | None => ReadFails (MissingColumn "name")
  | Some name =>
  match get "value" with
  | None => ReadFails (MissingColumn "value")
  | Some value =>
      Delivered
        {| c_id := or_empty (get "id"); c_company_name := company_name;
           c_company_id := company_id; c_type := type; c_name := name;
           c_option := or_empty (get "option"); c_value := value;
           c_required := or_empty (get "required");
           c_max_length := or_empty (get "max_length");
           c_placeholder := or_empty (get "placeholder") |}
  end end end end end.

(** The data lines below the header, read and handed to the loop one after
    the other; the first exception ends the reading. *)
Fixpoint read_rows (fieldnames : list string) (lines : list csv_row)
    : read_result (list csv_row) :=
  match lines with
  | [] => Delivered []
  | line :: rest =>
      match read_line line with
      | ReadFails e => ReadFails e
      | Delivered row =>
          match deliver_row fieldnames row with
          | ReadFails e => ReadFails e
          | Delivered r =>
              match read_rows fieldnames rest with
              | ReadFails e => ReadFails e
              | Delivered rs => Delivered (r :: rs)
              end
          end
      end
  end.

(** [csv.DictReader] over the opened file: the first line gives the field
    names, whatever it holds; an empty file gives no rows. *)
Definition dict_reader (file : disk_file) : read_result store_file :=
  match file with
  | None => Delivered None
  | Some [] => Delivered (Some [])
  | Some (first :: lines) =>
      match read_line first with
      | ReadFails e => ReadFails e
      | Delivered fieldnames =>
          match read_rows fieldnames lines with
          | ReadFails e => ReadFails e
          | Delivered rows => Delivered (Some rows)
          end
      end
  end.

(** [load_input_mappings] on the file as it is on disk: the reader, then
    the loop over the rows it delivers. *)
Definition load_input_mappings_file (file : disk_file) : read_result mappings :=
  match dict_reader file with
  | ReadFails e => ReadFails e
  | Delivered rows => Delivered (load_input_mappings rows)
  end.

(** A line as the reader delivers it under the header of [header_line]. *)
Definition translate_row (line : csv_row) : csv_row :=
  {| c_id := universal_newlines (c_id line);
     c_company_name := universal_newlines (c_company_name line);
     c_company_id := universal_newlines (c_company_id line);
     c_type := universal_newlines (c_type line);
     c_name := universal_newlines (c_name line);
     c_option := universal_newlines (c_option line);
     c_value := universal_newlines (c_value line);
     c_required := universal_newlines (c_required line);
     c_max_length := universal_newlines (c_max_length line);
     c_placeholder := universal_newlines (c_placeholder line) |}.

(* ------------------------------------------------------------------ *)
(** ** Catalog extraction: [extract_form_data] *)

Inductive tag : Type := TInput | TSelect | TTextarea.

(** A form control of the parsed form, with the attributes the extractor
    reads ([None]: attribute absent). [e_option_labels] holds
    [option.text.strip()] of each nested [option], in document order. *)
Record element : Type := {
  e_tag : tag;
  e_type : option string;
  e_name : option string;
  e_value : option string;
  e_aria_required : option string;
  e_maxlength : option string;
  e_placeholder : option string;
  e_option_labels : list string
}.

(** One entry of [form_data]. A key the source leaves out of the entry
    reads as its [.get] default: [None], [[]] or [False]. *)
Record field_info : Type := {
  f_type : string;
  f_required : bool;
  f_max_length : option string;
  f_placeholder : option string;
  f_options : list (option string);
  f_value : option string;
  f_purpose : option string
}.

Definition catalog := list (pykey * field_info).

Definition opt_eqb (o : option string) (s : string) : bool :=
  match o with Some x => String.eqb x s | None => false end.

Definition aria_required (e : element) : bool :=
  opt_eqb (e_aria_required e) "true".

Definition is_tag (t : tag) (e : element) : bool :=
  match t, e_tag e with
  | TInput, TInput | TSelect, TSelect | TTextarea, TTextarea => true
  | _, _ => false
  end.

(** [soup.find_all('input', {'type': types})] *)
Definition find_inputs (types : list string) (soup : list element) : list element :=
  filter (fun e => is_tag TInput e && existsb (opt_eqb (e_type e)) types) soup.

Definition find_tag (t : tag) (soup : list element) : list element :=
  filter (is_tag t) soup.

Definition plain_info (ty : string) (req : bool) : field_info :=
  {| f_type := ty; f_required := req; f_max_length := None;
     f_placeholder := None; f_options := []; f_value := None;
     f_purpose := None |}.

Definition text_step (form_data : catalog) (input_field : element) : catalog :=
  if truthy_str (e_name input_field) then
    dict_set pykey_eqb (e_name input_field)
      {| f_type := or_empty (e_type input_field);
         f_required := aria_required input_field;
         f_max_length := e_maxlength input_field;
         f_placeholder := e_placeholder input_field;
         f_options := []; f_value := None; f_purpose := None |}
      form_data
  else form_data.

Definition select_step (form_data : catalog) (select_element : element) : catalog :=
  let options :=
    filter (fun s => truthy_str (Some s)) (e_option_labels select_element) in
  if truthy_str (e_name select_element) then
    dict_set pykey_eqb (e_name select_element)
      {| f_type := "select";
         f_required := aria_required select_element;
         f_max_length := None; f_placeholder := None;
         f_options := map Some options; f_value := None; f_purpose := None |}
      form_data
  else form_data.

Definition add_option (v : option string) (fi : field_info) : field_info :=
  {| f_type := f_type fi; f_required := f_required fi;
     f_max_length := f_max_length fi; f_placeholder := f_placeholder fi;
     f_options := f_options fi ++ [v]; f_value := f_value fi;
     f_purpose := f_purpose fi |}.

Definition radio_step (radio_groups : catalog) (radio : element) : catalog :=
  if truthy_str (e_name radio) then
    let groups1 :=
      if dict_mem pykey_eqb (e_name radio) radio_groups then radio_groups
      else dict_set pykey_eqb (e_name radio)
             (plain_info "radio" (aria_required radio)) radio_groups in
    match dict_get pykey_eqb (e_name radio) groups1 with
    | Some g => dict_set pykey_eqb (e_name radio) (add_option (e_value radio) g) groups1
    | None => groups1
    end
  else radio_groups.

(** ['agree' in name.lower() or 'consent' in name.lower() or '同意' in name] *)
Definition agreement_name (name : string) : bool :=
  contains "agree" (lower name) || contains "consent" (lower name)
  || contains "同意" name.

Definition checkbox_step (form_data : catalog) (checkbox : element) : catalog :=
  let name := e_name checkbox in
  if truthy_str name && agreement_name (or_empty name) then
    dict_set pykey_eqb name
      {| f_type := "checkbox"; f_required := aria_required checkbox;
         f_max_length := None; f_placeholder := None; f_options := [];
         f_value := e_value checkbox; f_purpose := Some "agreement" |}
      form_data
  else
    dict_set pykey_eqb name
      {| f_type := "checkbox"; f_required := aria_required checkbox;
         f_max_length := None; f_placeholder := None; f_options := [];
         f_value := e_value checkbox; f_purpose := None |}
      form_data.

(** ['captcha' in name.lower() or 'g-recaptcha-response' in name.lower()] *)
Definition captcha_name (name : string) : bool :=
  contains "captcha" (lower name) || contains "g-recaptcha-response" (lower name).

Definition textarea_step (form_data : catalog) (textarea : element) : catalog :=
  let name := e_name textarea in
  if truthy_str name && captcha_name (or_empty name) then
    dict_set pykey_eqb name (plain_info "captcha" true) form_data
  else if truthy_str name then
    dict_set pykey_eqb name (plain_info "textarea" (aria_required textarea)) form_data
  else form_data.

(** [form] is the parsed form, or [None] when the wait for a [form]
    element ends in [TimeoutException] or [NoSuchElementException]. *)
Definition extract_form_data (form : option (list element)) : catalog :=
  match form with
  | None => []
  | Some soup =>
      let fd1 := fold_left text_step (find_inputs ["text"; "email"; "tel"] soup) [] in
      let fd2 := fold_left select_step (find_tag TSelect soup) fd1 in
      let radio_groups := fold_left radio_step (find_inputs ["radio"] soup) [] in
      let fd3 := dict_update pykey_eqb fd2 radio_groups in
      let fd4 := fold_left checkbox_step (find_inputs ["checkbox"] soup) fd3 in
      fold_left textarea_step (find_tag TTextarea soup) fd4
  end.

(* ------------------------------------------------------------------ *)
(** ** Input synthesis: [generate_form_input] *)

(** What one generative request is built from: the descriptors placed in the
    prompt ([ai_input_needed]) and the inquiry text quoted in it. *)
Record ai_request : Type := {
  req_fields : catalog;
  req_inquiry : option string
}.

(** The generative call either raises or yields the text of the answer. *)
Inductive ai_outcome : Type :=
| AiRaises
| AiAnswer (answer : string).

(** [re.search(r'\{[\s\S]*\}', answer)]: the leftmost match starts at the
    first opening brace and, the star being greedy, ends at the last closing
    brace of the text. *)
Fixpoint from_first_lbrace (s : string) : option string :=
  match s with
  | EmptyString => None
  | String c r => if Ascii.eqb c "{" then Some s else from_first_lbrace r
  end.

Fixpoint upto_last_rbrace (s : string) : option string :=
  match s with
  | EmptyString => None
  | String c r =>
      match upto_last_rbrace r with
      | Some p => Some (String c p)
      | None => if Ascii.eqb c "}" then Some (String c EmptyString) else None
      end
  end.

Definition re_search_braces (answer : string) : option string :=
  match from_first_lbrace answer with
  | Some t => upto_last_rbrace t
  | None => None
  end.

Definition input_dict := list (string * jvalue).

(** [', '.join(xs) if xs else ''], which raises [TypeError] on an entry that
    is not a string. *)
Fixpoint all_strings (xs : list (option string)) : option (list string) :=
  match xs with
  | [] => Some []
  | Some s :: rest =>
      match all_strings rest with Some l => Some (s :: l) | None => None end
  | None :: _ => None
  end.

Definition join_options (xs : list (option string)) : outcome string :=
  match xs with
  | [] => Ok EmptyString
  | _ => match all_strings xs with
         | Some l => Ok (join ", " l)
         | None => Raise TypeError
         end
  end.

(** Body of [for field_name, value in ai_generated_input.items()]. *)
Definition item_step (form_data : catalog) (st : input_dict * list gen_item)
    (kv : string * jvalue) : outcome (input_dict * list gen_item) :=
  let '(generated_input, generate_item) := st in
  let '(field_name, value) := kv in
  if dict_mem String.eqb field_name generated_input then Ok st
  else
    let generated_input1 := dict_set String.eqb field_name value generated_input in
    match dict_get pykey_eqb (Some field_name) form_data with
    | None => Raise (KeyError field_name)
    | Some fi =>
        let not_selected_options :=
          filter (fun opt => py_ne opt value) (f_options fi) in
        option <- join_options not_selected_options ;;
        Ok (generated_input1,
            generate_item ++
              [ {| g_type := f_type fi; g_name := field_name; g_option := option;
                   g_value := value; g_required := f_required fi;
                   g_max_length := f_max_length fi;
                   g_placeholder := f_placeholder fi |} ])
    end.

Fixpoint item_loop (form_data : catalog) (items : list (string * jvalue))
    (st : input_dict * list gen_item) : outcome (input_dict * list gen_item) :=
  match items with
  | [] => Ok st
  | kv :: rest => st1 <- item_step form_data st kv ;; item_loop form_data rest st1
  end.

(** The four returned values, the catalog as the call leaves it (it is the
    caller's object, changed in place) and the requests that were issued. *)
Record synth_result : Type := {
  r_generated_input : option input_dict;
  r_field_sources : list (string * string);
  r_status : string;
  r_generate_item : option (list gen_item);
  r_form_data : catalog;
  r_requests : list ai_request
}.

Definition strip_recaptcha (form_data : catalog) : catalog :=
  if dict_mem pykey_eqb (Some "g-recaptcha-response") form_data
  then dict_del pykey_eqb (Some "g-recaptcha-response") form_data
  else form_data.

(** The loop over [existing_mappings[company_name]]. *)
Definition bind_cached (st : input_dict * list (string * string))
    (field_info : mapping_record) : input_dict * list (string * string) :=
  (dict_set String.eqb (m_name field_info) (JStr (m_value field_info)) (fst st),
   dict_set String.eqb (m_name field_info) "CSVからのマッピング" (snd st)).

Definition ai_input_needed (form_data : catalog) : catalog :=
  filter (fun kv => negb (pykey_eqb (fst kv) (Some "inquiry_content"))) form_data.

Definition generation_failed (fs : list (string * string)) (fd : catalog)
    (reqs : list ai_request) : synth_result :=
  {| r_generated_input := None; r_field_sources := fs;
     r_status := "input_generation_failed"; r_generate_item := None;
     r_form_data := fd; r_requests := reqs |}.

(** [ai] is the chat-completion call, [json_loads] is [json.loads] on text
    that starts with an opening brace ([None]: [JSONDecodeError]; otherwise
    the items of the decoded object). *)
Definition generate_form_input
    (ai : ai_request -> ai_outcome)
    (json_loads : string -> option (list (string * jvalue)))
    (form_data : catalog) (existing_mappings : mappings)
    (company_name : string) (inquiry_content : option string) : synth_result :=
  let form_data := strip_recaptcha form_data in
  match dict_get String.eqb company_name existing_mappings with
  | Some records =>
      let st := fold_left bind_cached records ([], []) in
      {| r_generated_input := Some (fst st); r_field_sources := snd st;
         r_status := "input_from_existing_mapping"; r_generate_item := Some [];
         r_form_data := form_data; r_requests := [] |}
  | None =>
      let '(generated_input, field_sources) :=
        if truthy_str inquiry_content
        then ([("inquiry_content", JStr (or_empty inquiry_content))],
              [("inquiry_content", "CSVからの入力")])
        else ([], []) in
      match ai_input_needed form_data with
      | [] =>
          {| r_generated_input := Some generated_input;
             r_field_sources := field_sources;
             r_status := "all_fill_from_csv"; r_generate_item := None;
             r_form_data := form_data; r_requests := [] |}
      | needed =>
          let req := {| req_fields := needed; req_inquiry := inquiry_content |} in
          match ai req with
          | AiRaises => generation_failed field_sources form_data [req]
          | AiAnswer answer =>
              match re_search_braces answer with
              | None => generation_failed field_sources form_data [req]
              | Some json_str =>
                  match json_loads json_str with
                  | None => generation_failed field_sources form_data [req]
                  | Some ai_generated_input =>
                      match item_loop form_data ai_generated_input
                              (generated_input, []) with
                      | Ok (gi, items) =>
                          {| r_generated_input := Some gi;
                             r_field_sources := field_sources;
                             r_status := "all_input_from_ai";
                             r_generate_item := Some items;
                             r_form_data := form_data; r_requests := [req] |}
                      | Raise _ =>
                          generation_failed field_sources form_data [req]
                      end
                  end
              end
          end
      end
  end.

(** A decoder for flat objects whose keys and values are string literals
    without escapes, enough to run the synthesizer on concrete answers. It
    reads the text one character at a time. *)
Inductive flat_state : Type :=
| FStart
| FKeyOrEnd (first : bool)
| FInKey (key : string)
| FColon (key : string)
| FValue (key : string)
| FInValue (key val : string)
| FCommaOrEnd
| FDone
| FError.

Definition is_space (c : ascii) : bool :=
  Ascii.eqb c " " || Ascii.eqb c "010" || Ascii.eqb c "013" || Ascii.eqb c "009".

Definition dquote : ascii := "034".
Definition backslash : ascii := "092".

Definition snoc (s : string) (c : ascii) : string :=
  (s ++ String c EmptyString)%string.

Definition flat_step (st : flat_state * input_dict) (c : ascii)
    : flat_state * input_dict :=
  let '(q, d) := st in
  match q with
  | FStart => if Ascii.eqb c "{" then (FKeyOrEnd true, d)
              else if is_space c then (FStart, d) else (FError, d)
  | FKeyOrEnd first =>
      if Ascii.eqb c dquote then (FInKey EmptyString, d)
      else if first && Ascii.eqb c "}" then (FDone, d)
      else if is_space c then (FKeyOrEnd first, d) else (FError, d)
  | FInKey k => if Ascii.eqb c dquote then (FColon k, d)
                else if Ascii.eqb c backslash then (FError, d) else (FInKey (snoc k c), d)
  | FColon k => if Ascii.eqb c ":" then (FValue k, d)
                else if is_space c then (FColon k, d) else (FError, d)
  | FValue k => if Ascii.eqb c dquote then (FInValue k EmptyString, d)
                else if is_space c then (FValue k, d) else (FError, d)
  | FInValue k v =>
      if Ascii.eqb c dquote then (FCommaOrEnd, dict_set String.eqb k (JStr v) d)
      else if Ascii.eqb c backslash then (FError, d) else (FInValue k (snoc v c), d)
  | FCommaOrEnd => if Ascii.eqb c "," then (FKeyOrEnd false, d)
                   else if Ascii.eqb c "}" then (FDone, d)
                   else if is_space c then (FCommaOrEnd, d) else (FError, d)
  | FDone => if is_space c then (FDone, d) else (FError, d)
  | FError => (FError, d)
  end.

Definition json_loads_flat (s : string) : option input_dict :=
  match fold_left flat_step (list_ascii_of_string s) (FStart, []) with
  | (FDone, d) => Some d
  | _ => None
  end.

(* ------------------------------------------------------------------ *)
(** ** Form filling: [fill_form] *)

(** The live page as the fill step sees it: the named checkboxes in document
    order with their selection state, and everything else. Acting on a text
    box, select, radio group or text area changes only the latter. *)
Record page (R : Type) : Type := {
  checkboxes : list (string * bool);
  others : R
}.
Arguments checkboxes {R} p.
Arguments others {R} p.

(** [checkbox.click()] on the first checkbox named [name]. *)
Fixpoint click (name : string) (cbs : list (string * bool)) : list (string * bool) :=
  match cbs with
  | [] => []
  | (n, sel) :: rest =>
      if String.eqb name n then (n, negb sel) :: rest
      else (n, sel) :: click name rest
  end.

Section FillForm.
Variable R : Type.
(** The driver's action for the kinds [text], [email], [tel], [select],
    [radio] and [textarea]: the element wait, whose [TimeoutException] the
    source catches (the page is returned as it was), and the action on the
    element, whose exceptions escape. *)
Variable drive : string -> string -> jvalue -> R -> outcome R.
(** Whether the driver can click the checkbox of a given name. *)
Variable clickable : string -> bool.
(** [handle_recaptcha], which catches every exception itself. *)
Variable handle_recaptcha : R -> R * (bool * string).

Definition with_checkboxes (p : page R) (cbs : list (string * bool)) : page R :=
  {| checkboxes := cbs; others := others p |}.

Definition with_others (p : page R) (r : R) : page R :=
  {| checkboxes := checkboxes p; others := r |}.

(** [checkbox.click()]: toggles the box, or raises when the driver cannot
    click it. *)
Definition click_checkbox (field_name : string) (p : page R) : outcome (page R) :=
  if clickable field_name
  then Ok (with_checkboxes p (click field_name (checkboxes p)))
  else Raise (DriverError field_name).

(** The [checkbox] branch; [None] from the lookup is the caught
    [NoSuchElementException]. *)
Definition fill_checkbox (fi : field_info) (field_name : string)
    (field_value : jvalue) (p : page R) : outcome (page R) :=
  match dict_get String.eqb field_name (checkboxes p) with
  | None => Ok p
  | Some is_selected =>
      if opt_eqb (f_purpose fi) "agreement" then
        if negb is_selected then click_checkbox field_name p else Ok p
      else if is_bool field_value then
        if truthy field_value && negb is_selected
        then click_checkbox field_name p
        else if negb (truthy field_value) && is_selected
        then click_checkbox field_name p
        else Ok p
      else
        if truthy field_value && negb is_selected
        then click_checkbox field_name p
        else if negb (truthy field_value) && is_selected
        then click_checkbox field_name p
        else Ok p
  end.

(** Body of [for field_name, field_value in generated_input.items()]. *)
Definition fill_field (form_data : catalog) (p : page R)
    (kv : string * jvalue) : outcome (page R) :=
  let '(field_name, field_value) := kv in
  match dict_get pykey_eqb (Some field_name) form_data with
  | None => Ok p
  | Some fi =>
      let field_type := f_type fi in
      if existsb (String.eqb field_type) ["text"; "email"; "tel"] then
        r <- drive field_type field_name field_value (others p) ;;
        Ok (with_others p r)
      else if String.eqb field_type "select" then
        r <- drive field_type field_name field_value (others p) ;;
        Ok (with_others p r)
      else if String.eqb field_type "radio" then
        r <- drive field_type field_name field_value (others p) ;;
        Ok (with_others p r)
      else if String.eqb field_type "checkbox" then
        fill_checkbox fi field_name field_value p
      else if String.eqb field_type "textarea" then
        r <- drive field_type field_name field_value (others p) ;;
        Ok (with_others p r)
      else if String.eqb field_type "captcha" then Ok p
      else Ok p
  end.

(** The loop, returning the page as it stands when the loop ends or an
    exception leaves it. *)
Fixpoint fill_fields (form_data : catalog) (items : input_dict) (p : page R)
    : page R * option exn :=
  match items with
  | [] => (p, None)
  | kv :: rest =>
      match fill_field form_data p kv with
      | Ok p1 => fill_fields form_data rest p1
      | Raise e => (p, Some e)
      end
  end.

End FillForm.

(* ------------------------------------------------------------------ *)
(** ** Batch coordinator: the collection loop of [submit_forms] *)

Module App.

(** One entry of [results]; the first four fields are the keys
    [日時], [お問い合わせURL], [入力項目] and [入力した内容]. *)
Record result : Type := {
  res_time : string;
  res_url : string;
  res_fields : string;
  res_values : string;
  res_status : string;
  res_status_message : string;
  res_check_message : string
}.

(** The names bound at module level in [app.py]: its imports, the names
    imported from the automation module, and its own assignments and
    functions. *)
Definition module_globals : list string :=
  [ "Flask"; "request"; "jsonify"; "os"; "pd"; "logging";
    "ProcessPoolExecutor"; "as_completed"; "partial"; "load_dotenv"; "uuid";
    "verify_columns"; "load_input_mappings"; "save_input_mapping";
    "extract_form_data"; "generate_form_input"; "handle_recaptcha";
    "fill_form"; "click_submit_button"; "check_submission_status";
    "check_form_submission_success"; "add_result"; "summarize_results";
    "save_results_to_json"; "save_results_to_csv"; "detect_captcha";
    "scroll_into_view"; "fill_input_field"; "find_and_click_submit";
    "submit_contact_form"; "find_contact_info"; "process_company";
    "app"; "openai_api_key"; "anticaptcha_api_key"; "USER_ID";
    "submit_forms"; "index" ].

(** Reading a name that is neither local nor a builtin. *)
Definition load_global (name : string) : outcome unit :=
  if existsb (String.eqb name) module_globals then Ok tt
  else Raise (NameError name).

Definition exn_text (e : exn) : string :=
  match e with
  | KeyError k => k
  | TypeError => "TypeError"
  | NameError n => ("name '" ++ n ++ "' is not defined")%string
  | TimeoutError => "TimeoutError"
  | DriverError msg => msg
  | WorkerError msg => msg
  end.

(** Body of [except Exception as e]: log, then build the synthetic
    result. [now] is what [time.strftime] would print. *)
Definition on_worker_error (now : string) (e : exn) : outcome result :=
  _ <- load_global "logging" ;;
  _ <- load_global "time" ;;
  Ok {| res_time := now; res_url := "N/A"; res_fields := EmptyString;
        res_values := EmptyString; res_status := "error";
        res_status_message :=
          ("並列処理中にエラーが発生しました: " ++ exn_text e)%string;
        res_check_message := EmptyString |}.

(** [for future in as_completed(futures)]: [completed] lists what each
    future yields, in completion order. An exception raised inside the
    handler leaves the loop and the function. *)
Fixpoint collect (now : string) (completed : list (outcome result))
    (results : list result) : outcome (list result) :=
  match completed with
  | [] => Ok results
  | Ok r :: rest => collect now rest (results ++ [r])
  | Raise e :: rest =>
      r <- on_worker_error now e ;;
      collect now rest (results ++ [r])
  end.

(** The part of [submit_forms] after the upload has been validated and
    the tasks submitted: the [details] of the response. *)
Definition submit_forms (now : string) (completed : list (outcome result))
    : outcome (list result) :=
  collect now completed [].

End App.

(* ------------------------------------------------------------------ *)
(** ** Vocabulary of the statements and sample data *)

(** The value of the last record named [name], if any. *)
Fixpoint last_match (name : string) (records : list mapping_record) : option string :=
  match records with
  | [] => None
  | r :: rest =>
      match last_match name rest with
      | Some v => Some v
      | None => if String.eqb name (m_name r) then Some (m_value r) else None
      end
  end.

(** The value of the first record named [name], if any. *)
Fixpoint first_match (name : string) (records : list mapping_record) : option string :=
  match records with
  | [] => None
  | r :: rest =>
      if String.eqb name (m_name r) then Some (m_value r) else first_match name rest
  end.

Definition of_company (company : string) (rows : list csv_row) : list csv_row :=
  filter (fun row => String.eqb company (c_company_name row)) rows.

Definition acme_record (value : string) : mapping_record :=
  {| m_company_id := "c-1"; m_type := "email"; m_name := "email";
     m_option := EmptyString; m_value := value; m_required := true;
     m_max_length := EmptyString; m_placeholder := EmptyString |}.

Definition acme_row (value : string) : csv_row :=
  {| c_id := "u-1"; c_company_name := "Acme"; c_company_id := "c-1";
     c_type := "email"; c_name := "email"; c_option := EmptyString;
     c_value := value; c_required := "True"; c_max_length := EmptyString;
     c_placeholder := EmptyString |}.

Definition acme_tel_row : csv_row :=
  {| c_id := "u-1"; c_company_name := "Acme"; c_company_id := "c-1";
     c_type := "tel"; c_name := "tel"; c_option := EmptyString;
     c_value := "0312345678"; c_required := "False";
     c_max_length := EmptyString; c_placeholder := EmptyString |}.


(** [t] occurs in [s]. *)
Definition occurs_in (t s : string) : Prop :=
  exists pre post, s = (pre ++ t ++ post)%string.

(** No part of the answer decodes as a JSON object. *)
Definition no_parseable_object
    (json_loads : string -> option (list (string * jvalue))) (answer : string) : Prop :=
  forall t, occurs_in t answer -> json_loads t = None.

Definition email_catalog : catalog :=
  [(Some "email", plain_info "email" true)].

(** What is bound before the generative step. *)
Definition supplied_input (content : option string) : input_dict :=
  if truthy_str content then [("inquiry_content", JStr (or_empty content))] else [].

Definition supplied_sources (content : option string) : list (string * string) :=
  if truthy_str content then [("inquiry_content", "CSVからの入力")] else [].

Definition request_of (form_data : catalog) (content : option string) : ai_request :=
  {| req_fields := ai_input_needed (strip_recaptcha form_data);
     req_inquiry := content |}.

Definition quoted (s : string) : string :=
  (String dquote s ++ String dquote EmptyString)%string.

Definition json_pair (kv : string * string) : string :=
  (quoted (fst kv) ++ ": " ++ quoted (snd kv))%string.

(** The text of a flat JSON object with the given string members. *)
Definition json_object (members : list (string * string)) : string :=
  ("{" ++ join ", " (map json_pair members) ++ "}")%string.

Definition contact_catalog : catalog :=
  [(Some "full_name", plain_info "text" true);
   (Some "email", plain_info "email" true);
   (Some "message", plain_info "textarea" true)].

Definition contact_answer : string :=
  json_object [("full_name", "Taro Yamada"); ("email", "taro@example.com");
               ("message", "Hello")].

Definition captcha_info : field_info := plain_info "captcha" true.


Definition values_sat (P : field_info -> Prop) (d : catalog) : Prop :=
  forall k fi, In (k, fi) d -> P fi.

Definition control (t : tag) (type name : option string) : element :=
  {| e_tag := t; e_type := type; e_name := name; e_value := None;
     e_aria_required := None; e_maxlength := None; e_placeholder := None;
     e_option_labels := [] |}.

Definition recaptcha_key : string := "g-recaptcha-response".

Definition recaptcha_form : list element :=
  [control TInput (Some "email") (Some "email");
   control TTextarea None (Some "g-recaptcha-response")].

Definition captcha_named_form : list element :=
  [control TInput (Some "text") (Some "captcha_code");
   control TTextarea None (Some "image_captcha")].







Definition task_result (url : string) : App.result :=
  {| App.res_time := "2024/01/01 00:00"; App.res_url := url;
     App.res_fields := "email"; App.res_values := "info@example.com";
     App.res_status := "success"; App.res_status_message := "sent";
     App.res_check_message := EmptyString |}.

(* ------------------------------------------------------------------ *)
(** ** Upload checks of [submit_forms] and [verify_columns] *)

(** [columns] are the labels of [df.columns]. *)
Definition verify_columns (columns required_columns : list string) : bool :=
  match filter (fun col => negb (existsb (String.eqb col) columns)) required_columns with
  | [] => true
  | _ :: _ => false
  end.

(** [s.endswith(suffix)] *)
Fixpoint endswith (suffix s : string) : bool :=
  if String.eqb suffix s then true
  else match s with
       | EmptyString => false
       | String _ r => endswith suffix r
       end.

(** The uploaded file: its name and what [pd.read_csv] makes of it, the
    column labels or the text of the exception it raises. *)
Record upload : Type := {
  up_filename : string;
  up_read_csv : string + list string
}.

Definition required_columns : list string :=
  ["企業名"; "住所"; "サイトURL"; "お問い合わせ内容"].

(** The checks made before any task is submitted: [Some msg] is the
    [error] text of the 400 response, [None] lets the request through.
    [file] is [request.files.get('file')]. *)
Definition check_upload (file : option upload) : option string :=
  match file with
  | None => Some "CSVファイルがアップロードされていません。"
  | Some f =>
      if String.eqb (up_filename f) EmptyString
      then Some "選択されたファイルがありません。"
      else if negb (endswith ".csv" (up_filename f))
      then Some "CSVファイルのみがサポートされています。"
      else match up_read_csv f with
           | inl e => Some ("CSVファイルの読み込みに失敗しました: " ++ e)%string
           | inr columns =>
               if negb (verify_columns columns required_columns)
               then Some "必要なカラムが不足しています。CSVファイルを確認してください。"
               else None
           end
  end.

(** [min(4, os.cpu_count() or 1)] *)
Definition max_workers (cpu_count : option nat) : nat :=
  Nat.min 4 (match cpu_count with
             | Some (S n) => S n
             | _ => 1
             end).

(* ------------------------------------------------------------------ *)
(** ** CAPTCHA handling: [handle_recaptcha] *)

(** [[a-zA-Z0-9_-]] *)
Definition is_key_char (c : ascii) : bool :=
  let n := nat_of_ascii c in
  (Nat.leb 97 n && Nat.leb n 122) || (Nat.leb 65 n && Nat.leb n 90)
  || (Nat.leb 48 n && Nat.leb n 57) || Nat.eqb n 95 || Nat.eqb n 45.

(** The longest prefix made of key characters. *)
Fixpoint take_key (s : string) : string :=
  match s with
  | EmptyString => EmptyString
  | String c r => if is_key_char c then String c (take_key r) else EmptyString
  end.

(** Group 1 of [re.search(r'k=([a-zA-Z0-9_-]+)', src)]: at the leftmost
    place where [k=] is followed by a key character, the longest run of key
    characters. *)
Fixpoint search_site_key (src : string) : option string :=
  match src with
  | EmptyString => None
  | String c r =>
      match r with
      | String d rest =>
          if Ascii.eqb c "k" && Ascii.eqb d "="
          then match take_key rest with
               | EmptyString => search_site_key r
               | key => Some key
               end
          else search_site_key r
      | EmptyString => None
      end
  end.

(** What an explicit wait ends in. *)
Inductive wait_result : Type :=
| Located
| WaitTimeout
| WaitError (msg : string).

(** What the solving service ends in: a token, an [AnticaptchaException]
    with its error code and text, or another exception. *)
Inductive solver_outcome : Type :=
| Solved (token : string)
| SolverRefused (error_code msg : string)
| SolverCrashed (msg : string).

(** What [driver.execute_script] ends in. *)
Inductive script_outcome : Type :=
| ScriptDone
| ScriptTimeout
| ScriptError (msg : string).

(** The page during [handle_recaptcha]: the wait for the hidden response
    field, the wait for the challenge frame, the frame's [src], the page
    URL, and the fate of the injection script. *)
Record captcha_page : Type := {
  cp_hidden_field : wait_result;
  cp_iframe : wait_result;
  cp_iframe_src : string;
  cp_url : string;
  cp_execute_script : string -> script_outcome
}.

(** What the function does to the outside. *)
Inductive captcha_action : Type :=
| AskSolver (url site_key : string)
| RunScript (script : string).

Definition injection_script (solution : string) : string :=
  ("document.getElementsByName(" ++ String dquote "g-recaptcha-response"
   ++ String dquote ")[0].value=" ++ String dquote solution
   ++ String dquote ";")%string.

Definition no_recaptcha : bool * string := (true, "reCAPTCHAはありません。").

Definition iframe_missing : bool * string :=
  (true, "reCAPTCHAの iframe が見つかりませんでした。非表示の可能性があります。").

Definition check_failed (msg : string) : bool * string :=
  (false, ("reCAPTCHAの確認中にエラーが発生しました: " ++ msg)%string).

(** Returns the pair of the source and the actions taken, in order.
    [solver url site_key] stands for [createTask], [join] and
    [get_solution_response]. The inner [try] spans the frame wait, the
    solver and the injection, so a [TimeoutException] of any of them is
    answered like a missing frame. *)
Definition handle_recaptcha (page : captcha_page)
    (solver : string -> string -> solver_outcome)
    : (bool * string) * list captcha_action :=
  match cp_hidden_field page with
  | WaitTimeout => (no_recaptcha, [])
  | WaitError msg => (check_failed msg, [])
  | Located =>
      match cp_iframe page with
      | WaitTimeout => (iframe_missing, [])
      | WaitError msg => (check_failed msg, [])
      | Located =>
          match search_site_key (cp_iframe_src page) with
          | None => ((false, "サイトキーの取得に失敗しました。"), [])
          | Some site_key =>
              let ask := AskSolver (cp_url page) site_key in
              match solver (cp_url page) site_key with
              | SolverRefused _ msg =>
                  ((false, ("Anticaptchaエラー: " ++ msg)%string), [ask])
              | SolverCrashed msg => (check_failed msg, [ask])
              | Solved solution =>
                  let script := injection_script solution in
                  match cp_execute_script page script with
                  | ScriptDone =>
                      ((true, "reCAPTCHAが解決され、ソリューションが挿入されました。"),
                       [ask; RunScript script])
                  | ScriptTimeout => (iframe_missing, [ask; RunScript script])
                  | ScriptError msg => (check_failed msg, [ask; RunScript script])
                  end
              end
          end
      end
  end.

(* ------------------------------------------------------------------ *)
(** ** Scrolling: [StealthDriver.random_scroll] *)

(** [amounts i] is the [i]-th value drawn by [random.randint(100, 300)].
    Returns the positions scrolled to, or [None] when [fuel] iterations were
    not enough to leave the loop. *)
Fixpoint scroll_from (amounts : nat -> nat) (fuel i current_position total_height : nat)
    : option (list nat) :=
  if Nat.ltb current_position total_height then
    match fuel with
    | 0 => None
    | S fuel' =>
        let position := current_position + amounts i in
        match scroll_from amounts fuel' (S i) position total_height with
        | Some l => Some (position :: l)
        | None => None
        end
    end
  else Some [].

Definition random_scroll (amounts : nat -> nat) (fuel total_height : nat)
    : option (list nat) :=
  scroll_from amounts fuel 0 0 total_height.

(* ------------------------------------------------------------------ *)
(** ** Further vocabulary of the statements *)




(** The number of records held by a loaded mapping. *)
Definition total_records (ms : mappings) : nat :=
  list_sum (map (fun kv => List.length (snd kv)) ms).

(** [c] occurs in [s]. *)
Fixpoint has_char (c : ascii) (s : string) : bool :=
  match s with
  | EmptyString => false
  | String a r => Ascii.eqb a c || has_char c r
  end.

Definition is_failed (status : string) : bool :=
  String.eqb status "input_generation_failed".

(** What holds between the inputs bound so far and the records made so far
    during the loop over the decoded object. *)
Definition records_match (fd : catalog) (init : input_dict)
    (st : input_dict * list gen_item) : Prop :=
  (forall it, In it (snd st) ->
     dict_get String.eqb (g_name it) (fst st) = Some (g_value it)
     /\ dict_get String.eqb (g_name it) init = None
     /\ exists fi, dict_get pykey_eqb (Some (g_name it)) fd = Some fi
                   /\ g_type it = f_type fi /\ g_required it = f_required fi
                   /\ g_max_length it = f_max_length fi
                   /\ g_placeholder it = f_placeholder fi)
  /\ NoDup (map g_name (snd st))
  /\ (forall k v, dict_get String.eqb k (fst st) = Some v ->
        dict_get String.eqb k init = Some v
        \/ exists it, In it (snd st) /\ g_name it = k /\ g_value it = v)
  /\ (forall k v, dict_get String.eqb k init = Some v ->
        dict_get String.eqb k (fst st) = Some v).

Definition plan_catalog : catalog :=
  [(Some "plan",
    {| f_type := "radio"; f_required := false; f_max_length := None;
       f_placeholder := None; f_options := [Some "basic"; None];
       f_value := None; f_purpose := None |})].

Definition kinds : list string :=
  ["text"; "email"; "tel"; "select"; "radio"; "checkbox"; "textarea"; "captcha"].

(** The shape of a descriptor: which attributes go with which kind. *)
Definition well_shaped (fi : field_info) : Prop :=
  In (f_type fi) kinds
  /\ (f_options fi <> [] -> f_type fi = "select" \/ f_type fi = "radio")
  /\ (f_max_length fi <> None \/ f_placeholder fi <> None ->
      In (f_type fi) ["text"; "email"; "tel"])
  /\ (f_value fi <> None \/ f_purpose fi <> None -> f_type fi = "checkbox")
  /\ (f_type fi = "captcha" -> f_required fi = true)
  /\ (f_type fi = "select" ->
      forall o, In o (f_options fi) -> exists s, o = Some s /\ s <> EmptyString).

(** The element's [name] attribute is [n]. *)
Definition named (n : string) (e : element) : bool := opt_eqb (e_name e) n.

(** The radio buttons of the form named [n], in document order. *)
Definition radio_group (n : string) (soup : list element) : list element :=
  filter (named n) (find_inputs ["radio"] soup).

(** The descriptor the checkbox loop stores for a checkbox. *)
Definition checkbox_info (checkbox : element) : field_info :=
  {| f_type := "checkbox"; f_required := aria_required checkbox;
     f_max_length := None; f_placeholder := None; f_options := [];
     f_value := e_value checkbox;
     f_purpose := if agreement_name (or_empty (e_name checkbox))
                  then Some "agreement" else None |}.

Definition survey_form : list element :=
  [control TInput (Some "text") (Some "plan");
   {| e_tag := TInput; e_type := Some "radio"; e_name := Some "plan";
      e_value := Some "basic"; e_aria_required := Some "true";
      e_maxlength := None; e_placeholder := None; e_option_labels := [] |};
   {| e_tag := TInput; e_type := Some "radio"; e_name := Some "plan";
      e_value := Some "pro"; e_aria_required := None;
      e_maxlength := None; e_placeholder := None; e_option_labels := [] |};
   {| e_tag := TInput; e_type := Some "checkbox"; e_name := Some "agree_terms";
      e_value := Some "no"; e_aria_required := None;
      e_maxlength := None; e_placeholder := None; e_option_labels := [] |};
   {| e_tag := TInput; e_type := Some "checkbox"; e_name := Some "agree_terms";
      e_value := Some "yes"; e_aria_required := Some "true";
      e_maxlength := None; e_placeholder := None; e_option_labels := [] |}].



Definition newsletter_page : page unit :=
  {| checkboxes := [("newsletter", true)]; others := tt |}.

Definition recaptcha_form_catalog : catalog :=
  extract_form_data (Some recaptcha_form).

(* ================================================================== *)
(** * Properties *)

(** ** Dictionaries *)

Section DictFacts.
Context {K V : Type}.
Variable eqb : K -> K -> bool.
Hypothesis eqb_spec : forall a b, eqb a b = true <-> a = b.

Lemma dict_eqb_refl (k : K) : eqb k k = true.
Proof. now apply eqb_spec. Qed.

Lemma dict_eqb_neq (a b : K) : a <> b -> eqb a b = false.
Proof.
  intros Hne. destruct (eqb a b) eqn:E; [|reflexivity].
  apply eqb_spec in E. contradiction.
Qed.

Lemma dict_get_set_same (k : K) (v : V) (d : list (K * V)) :
  dict_get eqb k (dict_set eqb k v d) = Some v.
Proof.
  induction d as [|[k' v'] d IH]; simpl.
  - now rewrite dict_eqb_refl.
  - destruct (eqb k k') eqn:E; simpl; rewrite E; [reflexivity | exact IH].
Qed.

Lemma dict_get_set_other (k k' : K) (v : V) (d : list (K * V)) :
  k <> k' -> dict_get eqb k (dict_set eqb k' v d) = dict_get eqb k d.
Proof.
  intros Hne. induction d as [|[k2 v2] d IH]; simpl.
  - now rewrite (dict_eqb_neq _ _ Hne).
  - destruct (eqb k' k2) eqn:E; simpl.
    + apply eqb_spec in E. subst k2. now rewrite (dict_eqb_neq _ _ Hne).
    + destruct (eqb k k2); [reflexivity | exact IH].
Qed.

Lemma dict_get_set (k k' : K) (v : V) (d : list (K * V)) :
  dict_get eqb k (dict_set eqb k' v d)
  = if eqb k k' then Some v else dict_get eqb k d.
Proof.
  destruct (eqb k k') eqn:E.
  - apply eqb_spec in E. subst. apply dict_get_set_same.
  - apply dict_get_set_other. intros ->. now rewrite dict_eqb_refl in E.
Qed.

Lemma dict_get_filter_out (k : K) (d : list (K * V)) :
  dict_get eqb k (filter (fun kv => negb (eqb k (fst kv))) d) = None.
Proof.
  induction d as [|[k' v'] d IH]; simpl; [reflexivity|].
  destruct (eqb k k') eqn:E; simpl; [exact IH | now rewrite E].
Qed.

Lemma dict_get_del_same (k : K) (d : list (K * V)) :
  dict_get eqb k (dict_del eqb k d) = None.
Proof. apply dict_get_filter_out. Qed.

Lemma dict_get_filter_none (k : K) (p : K * V -> bool) (d : list (K * V)) :
  dict_get eqb k d = None -> dict_get eqb k (filter p d) = None.
Proof.
  induction d as [|[k' v'] d IH]; simpl; [reflexivity|].
  destruct (eqb k k') eqn:E; [discriminate|]. intros H.
  destruct (p (k', v')); simpl; [rewrite E|]; auto.
Qed.

Lemma dict_get_In (k : K) (v : V) (d : list (K * V)) :
  dict_get eqb k d = Some v -> In (k, v) d.
Proof.
  induction d as [|[k' v'] d IH]; simpl; [discriminate|].
  destruct (eqb k k') eqn:E.
  - apply eqb_spec in E. intros [= ->]. subst. now left.
  - intros H. right. auto.
Qed.

Lemma dict_mem_get (k : K) (d : list (K * V)) :
  dict_mem eqb k d = true <-> exists v, dict_get eqb k d = Some v.
Proof.
  unfold dict_mem. destruct (dict_get eqb k d).
  - split; eauto.
  - split; [discriminate | intros [v H]; discriminate].
Qed.
End DictFacts.

Lemma pykey_eqb_spec (a b : pykey) : pykey_eqb a b = true <-> a = b.
Proof.
  destruct a as [x|], b as [y|]; simpl; try (split; congruence).
  rewrite String.eqb_eq. split; congruence.
Qed.

Lemma sget_set {V : Type} (k k' : string) (v : V) (d : list (string * V)) :
  dict_get String.eqb k (dict_set String.eqb k' v d)
  = if String.eqb k k' then Some v else dict_get String.eqb k d.
Proof. apply dict_get_set, String.eqb_eq. Qed.

Lemma kget_set {V : Type} (k k' : pykey) (v : V) (d : list (pykey * V)) :
  dict_get pykey_eqb k (dict_set pykey_eqb k' v d)
  = if pykey_eqb k k' then Some v else dict_get pykey_eqb k d.
Proof. apply dict_get_set, pykey_eqb_spec. Qed.

(** ** Mapping store *)

Lemma last_match_app (name : string) (l1 l2 : list mapping_record) :
  last_match name (l1 ++ l2)
  = match last_match name l2 with
    | Some v => Some v
    | None => last_match name l1
    end.
Proof.
  induction l1 as [|r l1 IH]; simpl.
  - now destruct (last_match name l2).
  - rewrite IH. now destruct (last_match name l2).
Qed.

Lemma last_match_none (name : string) (l : list mapping_record) :
  (forall r, In r l -> m_name r <> name) -> last_match name l = None.
Proof.
  induction l as [|r l IH]; simpl; intros H; [reflexivity|].
  rewrite IH by auto.
  destruct (String.eqb name (m_name r)) eqn:E; [|reflexivity].
  apply String.eqb_eq in E. exfalso. apply (H r); auto.
Qed.

Lemma last_match_In (name v : string) (l : list mapping_record) :
  last_match name l = Some v -> exists r, In r l /\ m_name r = name /\ m_value r = v.
Proof.
  induction l as [|r l IH]; simpl; [discriminate|].
  destruct (last_match name l) as [w|].
  - intros [= <-]. destruct (IH eq_refl) as (r' & Hin & Hn & Hv). eauto.
  - destruct (String.eqb name (m_name r)) eqn:E; [|discriminate].
    apply String.eqb_eq in E. intros [= <-]. exists r. auto.
Qed.

Lemma load_row_get (c : string) (ms : mappings) (row : csv_row) :
  dict_get String.eqb c (load_row ms row)
  = if String.eqb c (c_company_name row)
    then Some (match dict_get String.eqb c ms with Some l => l | None => [] end
               ++ [field_info_of_row row])
    else dict_get String.eqb c ms.
Proof.
  unfold load_row, dict_mem.
  destruct (String.eqb c (c_company_name row)) eqn:E.
  - apply String.eqb_eq in E. subst c.
    destruct (dict_get String.eqb (c_company_name row) ms) as [l|] eqn:G.
    + rewrite G. now rewrite sget_set, String.eqb_refl.
    + rewrite sget_set, String.eqb_refl. now rewrite sget_set, String.eqb_refl.
  - destruct (dict_get String.eqb (c_company_name row) ms) as [l|] eqn:G.
    + rewrite G. now rewrite sget_set, E.
    + rewrite sget_set, String.eqb_refl. now rewrite !sget_set, E.
Qed.

Lemma load_fold_get (c : string) (rows : list csv_row) (ms : mappings) :
  dict_get String.eqb c (fold_left load_row rows ms)
  = match of_company c rows with
    | [] => dict_get String.eqb c ms
    | mine => Some (match dict_get String.eqb c ms with Some l => l | None => [] end
                    ++ map field_info_of_row mine)
    end.
Proof.
  revert ms. induction rows as [|row rows IH]; intros ms; simpl; [reflexivity|].
  rewrite IH, load_row_get.
  destruct (String.eqb c (c_company_name row)) eqn:E; simpl.
  - destruct (of_company c rows) as [|r rs]; simpl.
    + reflexivity.
    + now rewrite <- app_assoc.
  - reflexivity.
Qed.

(** [load_input_mappings] keeps, for each company, every row of the file in
    file order. *)
Lemma load_input_mappings_get (c : string) (rows : list csv_row) :
  dict_get String.eqb c (load_input_mappings (Some rows))
  = match of_company c rows with
    | [] => None
    | mine => Some (map field_info_of_row mine)
    end.
Proof.
  unfold load_input_mappings. rewrite load_fold_get. simpl.
  now destruct (of_company c rows).
Qed.

(** ** Cache path of the synthesizer *)

Lemma bind_cached_get (name : string) (records : list mapping_record)
    (st : input_dict * list (string * string)) :
  dict_get String.eqb name (fst (fold_left bind_cached records st))
  = match last_match name records with
    | Some v => Some (JStr v)
    | None => dict_get String.eqb name (fst st)
    end.
Proof.
  revert st. induction records as [|r records IH]; intros st; simpl; [reflexivity|].
  rewrite IH. destruct (last_match name records); [reflexivity|].
  simpl. rewrite sget_set. now destruct (String.eqb name (m_name r)).
Qed.

Lemma bind_cached_source (name : string) (records : list mapping_record)
    (st : input_dict * list (string * string)) :
  dict_get String.eqb name (snd (fold_left bind_cached records st))
  = match last_match name records with
    | Some _ => Some "CSVからのマッピング"
    | None => dict_get String.eqb name (snd st)
    end.
Proof.
  revert st. induction records as [|r records IH]; intros st; simpl; [reflexivity|].
  rewrite IH. destruct (last_match name records); [reflexivity|].
  simpl. rewrite sget_set. now destruct (String.eqb name (m_name r)).
Qed.

Lemma generate_form_input_on_hit
    (ai : ai_request -> ai_outcome)
    (json_loads : string -> option (list (string * jvalue)))
    (form_data : catalog) (existing : mappings) (company : string)
    (content : option string) (records : list mapping_record) :
  dict_get String.eqb company existing = Some records ->
  generate_form_input ai json_loads form_data existing company content
  = {| r_generated_input := Some (fst (fold_left bind_cached records ([], [])));
       r_field_sources := snd (fold_left bind_cached records ([], []));
       r_status := "input_from_existing_mapping";
       r_generate_item := Some [];
       r_form_data := strip_recaptcha form_data;
       r_requests := [] |}.
Proof. intros Hhit. unfold generate_form_input. now rewrite Hhit. Qed.

Lemma bound_from_cache (name : string) (records : list mapping_record) :
  dict_get String.eqb name (fst (fold_left bind_cached records ([], [])))
  = option_map JStr (last_match name records).
Proof. rewrite bind_cached_get. now destruct (last_match name records). Qed.

(** C2. When [company_name] has an entry in [existing_mappings], the
    synthesizer returns the bindings made from the cached records (every
    binding is a cached record's name and value, every record's name is
    bound, and a name carried by several records holds the value of the last
    of them), each with the cached-mapping provenance label, the status
    [input_from_existing_mapping], an empty list of new records, and it sends
    no generative request. *)
Theorem cache_hit_returns_cached_values
    (ai : ai_request -> ai_outcome)
    (json_loads : string -> option (list (string * jvalue)))
    (form_data : catalog) (existing : mappings) (company : string)
    (content : option string) (records : list mapping_record) :
  dict_get String.eqb company existing = Some records ->
  let res := generate_form_input ai json_loads form_data existing company content in
  r_status res = "input_from_existing_mapping"
  /\ r_generate_item res = Some []
  /\ r_requests res = []
  /\ exists g,
       r_generated_input res = Some g
       /\ (forall name, dict_get String.eqb name g
                        = option_map JStr (last_match name records))
       /\ (forall r, In r records -> dict_mem String.eqb (m_name r) g = true)
       /\ (forall name value, dict_get String.eqb name g = Some value ->
             exists r, In r records /\ m_name r = name /\ value = JStr (m_value r))
       /\ (forall name, dict_get String.eqb name (r_field_sources res)
                        = if dict_mem String.eqb name g
                          then Some "CSVからのマッピング" else None).
Proof.
  intros Hhit res. subst res.
  rewrite (generate_form_input_on_hit _ _ _ _ _ _ _ Hhit). simpl.
  repeat split.
  exists (fst (fold_left bind_cached records ([], []))).
  pose proof (fun name => bound_from_cache name records) as Hget.
  split; [reflexivity|]. split; [exact Hget|]. split; [|split].
  - intros r Hin. unfold dict_mem. rewrite Hget.
    destruct (last_match (m_name r) records) eqn:E; [reflexivity|].
    exfalso. clear Hget Hhit. induction records as [|r0 rs IH]; [contradiction|].
    simpl in E. destruct (last_match (m_name r) rs) eqn:E'; [discriminate|].
    destruct Hin as [->|Hin]; [now rewrite String.eqb_refl in E | auto].
  - intros name value Hv. rewrite Hget in Hv.
    destruct (last_match name records) as [v|] eqn:E; [|discriminate].
    injection Hv as <-. apply last_match_In in E.
    destruct E as (r & Hin & Hn & Hval). exists r. now subst.
  - intros name. unfold dict_mem. rewrite Hget, bind_cached_source.
    now destruct (last_match name records).
Qed.

Lemma cache_hit_returns_cached_values_witness :
  r_requests
    (generate_form_input (fun _ => AiRaises) json_loads_flat []
       [("Acme", [acme_record "info@example.com"])] "Acme" None) = [].
Proof.
  exact (proj1 (proj2 (proj2
    (cache_hit_returns_cached_values (fun _ => AiRaises) json_loads_flat []
       [("Acme", [acme_record "info@example.com"])] "Acme" None
       [acme_record "info@example.com"] eq_refl)))).
Defined.

(** C7, as the code has it. [load_input_mappings] keeps every row of the
    file under its company, in file order, duplicates included; and when the
    file holds several rows for one company and field, the value bound on
    the next resolution is the one of the row appended last (the last loaded
    match), each later row overwriting the binding of the earlier ones. *)
Theorem last_appended_record_is_bound
    (ai : ai_request -> ai_outcome)
    (json_loads : string -> option (list (string * jvalue)))
    (form_data : catalog) (before after : list csv_row) (row : csv_row)
    (content : option string) :
  (forall r, In r after -> c_company_name r = c_company_name row ->
             c_name r <> c_name row) ->
  let rows := before ++ row :: after in
  let existing := load_input_mappings (Some rows) in
  let res := generate_form_input ai json_loads form_data existing
               (c_company_name row) content in
  (forall c, dict_get String.eqb c existing
             = match of_company c rows with
               | [] => None
               | mine => Some (map field_info_of_row mine)
               end)
  /\ exists g, r_generated_input res = Some g
       /\ dict_get String.eqb (c_name row) g = Some (JStr (c_value row)).
Proof.
  intros Hlast rows existing res.
  split; [intros c; apply load_input_mappings_get|].
  assert (Hmine : of_company (c_company_name row) rows
                  = of_company (c_company_name row) before
                    ++ row :: of_company (c_company_name row) after).
  { unfold rows, of_company. rewrite filter_app. simpl.
    now rewrite String.eqb_refl. }
  assert (Hex : dict_get String.eqb (c_company_name row) existing
                = Some (map field_info_of_row
                          (of_company (c_company_name row) rows))).
  { unfold existing. rewrite load_input_mappings_get, Hmine.
    now destruct (of_company (c_company_name row) before). }
  subst res. rewrite (generate_form_input_on_hit _ _ _ _ _ _ _ Hex). simpl.
  eexists. split; [reflexivity|].
  rewrite bound_from_cache, Hmine, map_app, last_match_app.
  simpl. rewrite last_match_none.
  - now rewrite String.eqb_refl.
  - intros r Hin. apply in_map_iff in Hin. destruct Hin as (r0 & <- & Hin0).
    unfold of_company in Hin0. apply filter_In in Hin0. destruct Hin0 as [Hin0 Hc].
    apply String.eqb_eq in Hc. simpl. apply Hlast; auto.
Qed.

Lemma last_appended_record_is_bound_witness :
  exists g,
    r_generated_input
      (generate_form_input (fun _ => AiRaises) json_loads_flat []
         (load_input_mappings
            (Some ([acme_row "old@example.com"]
                   ++ acme_row "new@example.com" :: [acme_tel_row])))
         "Acme" None) = Some g
    /\ dict_get String.eqb "email" g = Some (JStr "new@example.com").
Proof.
  refine (proj2
    (last_appended_record_is_bound (fun _ => AiRaises) json_loads_flat []
       [acme_row "old@example.com"] [acme_tel_row] (acme_row "new@example.com")
       None _)).
  intros r [<-|[]] _. discriminate.
Defined.

(** C7 as stated fails: with two rows for one company and field, the first
    loaded match is the older value, and the value bound is the newer one. *)
Lemma first_loaded_match_is_not_bound :
  let rows := [acme_row "old@example.com"; acme_row "new@example.com"] in
  let existing := load_input_mappings (Some rows) in
  let res := generate_form_input (fun _ => AiRaises) json_loads_flat []
               existing "Acme" None in
  dict_get String.eqb "Acme" existing
    = Some [acme_record "old@example.com"; acme_record "new@example.com"]
  /\ first_match "email" [acme_record "old@example.com"; acme_record "new@example.com"]
     = Some "old@example.com"
  /\ r_generated_input res = Some [("email", JStr "new@example.com")]
  /\ r_generated_input res <> Some [("email", JStr "old@example.com")].
Proof.
  simpl. repeat split. discriminate.
Qed.

(** ** Round trip through the store *)

Lemma required_round_trip (b : bool) :
  String.eqb (lower (py_str_bool b)) "true" = b.
Proof. now destruct b. Qed.

Lemma of_company_saved (user_id company_id company : string) (items : list gen_item) :
  of_company company (map (row_of_item user_id company_id company) items)
  = map (row_of_item user_id company_id company) items.
Proof.
  unfold of_company. induction items as [|it items IH]; simpl; [reflexivity|].
  now rewrite String.eqb_refl, IH.
Qed.


Lemma deliver_standard_row (line : csv_row) :
  deliver_row (map universal_newlines (cells header_line))
    (map universal_newlines (cells line))
  = Delivered (translate_row line).
Proof. destruct line. reflexivity. Qed.

Lemma read_rows_standard (lines : list csv_row) :
  read_rows (map universal_newlines (cells header_line)) lines
  = if forallb within_limit lines then Delivered (map translate_row lines)
    else ReadFails FieldTooLarge.
Proof.
  induction lines as [|line lines IH]; [reflexivity|].
  cbn [read_rows forallb map]. unfold read_line.
  destruct (within_limit line); [|reflexivity]. cbn [andb].
  rewrite deliver_standard_row, IH.
  now destruct (forallb within_limit lines).
Qed.

Lemma load_file_standard (lines : list csv_row) :
  load_input_mappings_file (Some (header_line :: lines))
  = if forallb within_limit lines
    then Delivered (load_input_mappings (Some (map translate_row lines)))
    else ReadFails FieldTooLarge.
Proof.
  unfold load_input_mappings_file, dict_reader.
  change (read_line header_line)
    with (Delivered (A := list string) (map universal_newlines (cells header_line))).
  cbv beta iota. rewrite read_rows_standard.
  now destruct (forallb within_limit lines).
Qed.

(** A line with a cell over the field limit makes the load raise. *)
Lemma load_fails_over_limit (lines : list csv_row) :
  forallb within_limit lines = false ->
  load_input_mappings_file (Some (header_line :: lines)) = ReadFails FieldTooLarge.
Proof. intros H. now rewrite load_file_standard, H. Qed.







(** ** Failure of the generative step *)

Lemma from_first_lbrace_suffix (s t : string) :
  from_first_lbrace s = Some t -> exists pre, s = (pre ++ t)%string.
Proof.
  induction s as [|c r IH]; simpl; [discriminate|].
  destruct (Ascii.eqb c "{").
  - intros [= <-]. now exists EmptyString.
  - intros H. destruct (IH H) as [pre ->]. now exists (String c pre).
Qed.

Lemma upto_last_rbrace_prefix (s p : string) :
  upto_last_rbrace s = Some p -> exists post, s = (p ++ post)%string.
Proof.
  revert p. induction s as [|c r IH]; simpl; intros p; [discriminate|].
  destruct (upto_last_rbrace r) as [q|].
  - intros [= <-]. destruct (IH q eq_refl) as [post ->]. now exists post.
  - destruct (Ascii.eqb c "}"); [|discriminate].
    intros [= <-]. now exists r.
Qed.

Lemma re_search_braces_occurs (answer m : string) :
  re_search_braces answer = Some m -> occurs_in m answer.
Proof.
  unfold re_search_braces. destruct (from_first_lbrace answer) as [t|] eqn:E;
    [|discriminate].
  intros H. apply from_first_lbrace_suffix in E. destruct E as [pre ->].
  apply upto_last_rbrace_prefix in H. destruct H as [post ->].
  now exists pre, post.
Qed.

(** C4. On the generation path (no cached mapping, some field to generate),
    when the generative call raises, or its answer holds no brace-delimited
    block, or no part of the answer decodes as a JSON object, the
    synthesizer returns no result set, the status [input_generation_failed]
    and no new mapping records. *)
Theorem generation_failure_is_reported
    (ai : ai_request -> ai_outcome)
    (json_loads : string -> option (list (string * jvalue)))
    (form_data : catalog) (existing : mappings) (company : string)
    (content : option string) :
  dict_get String.eqb company existing = None ->
  ai_input_needed (strip_recaptcha form_data) <> [] ->
  (let req := {| req_fields := ai_input_needed (strip_recaptcha form_data);
                 req_inquiry := content |} in
   ai req = AiRaises
   \/ exists answer, ai req = AiAnswer answer
        /\ (re_search_braces answer = None
            \/ no_parseable_object json_loads answer)) ->
  let res := generate_form_input ai json_loads form_data existing company content in
  r_generated_input res = None
  /\ r_status res = "input_generation_failed"
  /\ r_generate_item res = None.
Proof.
  intros Hmiss Hneed Hfail res. subst res. unfold generate_form_input.
  rewrite Hmiss.
  destruct (truthy_str content);
    (destruct (ai_input_needed (strip_recaptcha form_data)) as [|kv needed] eqn:En;
     [contradiction|]);
    (destruct Hfail as [Hr | (answer & Ha & Hbad)];
     [ rewrite Hr; now repeat split
     | rewrite Ha; destruct (re_search_braces answer) as [m|] eqn:Em;
       [ destruct Hbad as [Hnone | Hno];
         [ discriminate
         | rewrite (Hno m (re_search_braces_occurs _ _ Em)); now repeat split ]
       | now repeat split ] ]).
Qed.

Lemma generation_failure_is_reported_witness :
  let res := generate_form_input (fun _ => AiAnswer "I cannot help with that.")
               json_loads_flat email_catalog [] "Acme" None in
  r_generated_input res = None
  /\ r_status res = "input_generation_failed"
  /\ r_generate_item res = None.
Proof.
  apply (generation_failure_is_reported (fun _ => AiAnswer "I cannot help with that.")
           json_loads_flat email_catalog [] "Acme" None).
  - reflexivity.
  - discriminate.
  - right. exists "I cannot help with that.". split; [reflexivity|]. now left.
Defined.

(** ** Generation path of the synthesizer *)

(** The three ways a run without cached mapping can end. *)
Lemma no_cache_cases
    (ai : ai_request -> ai_outcome)
    (json_loads : string -> option (list (string * jvalue)))
    (form_data : catalog) (existing : mappings) (company : string)
    (content : option string) :
  dict_get String.eqb company existing = None ->
  let fd := strip_recaptcha form_data in
  let res := generate_form_input ai json_loads form_data existing company content in
  r_form_data res = fd
  /\ r_field_sources res = supplied_sources content
  /\ ((ai_input_needed fd = [] /\ r_requests res = []
       /\ r_generated_input res = Some (supplied_input content)
       /\ r_status res = "all_fill_from_csv" /\ r_generate_item res = None)
      \/ (ai_input_needed fd <> [] /\ r_requests res = [request_of form_data content]
          /\ ((r_generated_input res = None
               /\ r_status res = "input_generation_failed"
               /\ r_generate_item res = None)
              \/ (exists answer json_str parsed gi items,
                    ai (request_of form_data content) = AiAnswer answer
                    /\ re_search_braces answer = Some json_str
                    /\ json_loads json_str = Some parsed
                    /\ item_loop fd parsed (supplied_input content, []) = Ok (gi, items)
                    /\ r_generated_input res = Some gi
                    /\ r_generate_item res = Some items
                    /\ r_status res = "all_input_from_ai")))).
Proof.
  intros Hmiss fd res. subst res. unfold generate_form_input, request_of,
    supplied_input, supplied_sources. rewrite Hmiss. fold fd.
  destruct (truthy_str content);
    (destruct (ai_input_needed fd) as [|kv needed] eqn:En;
     [ simpl; repeat split; left; repeat split; reflexivity |]);
    (match goal with
     | |- context [ai ?r] => destruct (ai r) as [|answer] eqn:Ea
     end;
     [ simpl; repeat split; right; repeat split; try discriminate; left;
       repeat split
     | destruct (re_search_braces answer) as [json_str|] eqn:Em;
       [ destruct (json_loads json_str) as [parsed|] eqn:Ej;
         [ match goal with
           | |- context [item_loop ?a ?b ?c] =>
               destruct (item_loop a b c) as [[gi items]|e] eqn:El
           end;
           [ simpl; repeat split; right; repeat split; try discriminate; right;
             exists answer, json_str, parsed, gi, items; repeat split; assumption
           | simpl; repeat split; right; repeat split; try discriminate; left;
             repeat split ]
         | simpl; repeat split; right; repeat split; try discriminate; left;
           repeat split ]
       | simpl; repeat split; right; repeat split; try discriminate; left;
         repeat split ] ]).
Qed.

Lemma item_step_keeps (fd : catalog) (st st1 : input_dict * list gen_item)
    (kv : string * jvalue) (k : string) (v : jvalue) :
  item_step fd st kv = Ok st1 ->
  dict_get String.eqb k (fst st) = Some v ->
  dict_get String.eqb k (fst st1) = Some v.
Proof.
  destruct st as [gi items], kv as [name value]. unfold item_step, dict_mem.
  destruct (dict_get String.eqb name gi) eqn:Eg.
  - intros [= <-]. auto.
  - destruct (dict_get pykey_eqb (Some name) fd) as [fi|]; [|discriminate].
    destruct (join_options _); simpl; [|discriminate].
    intros [= <-]. simpl. intros Hk. rewrite sget_set.
    destruct (String.eqb k name) eqn:E; [|exact Hk].
    apply String.eqb_eq in E. subst. congruence.
Qed.

Lemma item_step_keys (fd : catalog) (st st1 : input_dict * list gen_item)
    (kv : string * jvalue) (k : string) (v : jvalue) :
  item_step fd st kv = Ok st1 ->
  dict_get String.eqb k (fst st1) = Some v ->
  dict_get String.eqb k (fst st) = Some v
  \/ (k = fst kv /\ v = snd kv /\ exists fi, dict_get pykey_eqb (Some k) fd = Some fi).
Proof.
  destruct st as [gi items], kv as [name value]. unfold item_step, dict_mem.
  destruct (dict_get String.eqb name gi) eqn:Eg.
  - intros [= <-]. auto.
  - destruct (dict_get pykey_eqb (Some name) fd) as [fi|] eqn:Ef; [|discriminate].
    destruct (join_options _); simpl; [|discriminate].
    intros [= <-]. simpl. rewrite sget_set.
    destruct (String.eqb k name) eqn:E; [|auto].
    apply String.eqb_eq in E. subst. intros [= <-]. right. eauto.
Qed.

Lemma item_loop_keeps (fd : catalog) (parsed : list (string * jvalue))
    (st st1 : input_dict * list gen_item) (k : string) (v : jvalue) :
  item_loop fd parsed st = Ok st1 ->
  dict_get String.eqb k (fst st) = Some v ->
  dict_get String.eqb k (fst st1) = Some v.
Proof.
  revert st. induction parsed as [|kv parsed IH]; intros st; simpl.
  - intros [= <-]. auto.
  - destruct (item_step fd st kv) as [st'|] eqn:E; simpl; [|discriminate].
    intros Hl Hk. eapply IH; [exact Hl|]. eapply item_step_keeps; eauto.
Qed.

Lemma item_loop_keys (fd : catalog) (parsed : list (string * jvalue))
    (st st1 : input_dict * list gen_item) (k : string) (v : jvalue) :
  item_loop fd parsed st = Ok st1 ->
  dict_get String.eqb k (fst st1) = Some v ->
  dict_get String.eqb k (fst st) = Some v
  \/ (In (k, v) parsed /\ exists fi, dict_get pykey_eqb (Some k) fd = Some fi).
Proof.
  revert st. induction parsed as [|kv parsed IH]; intros st; simpl.
  - intros [= <-]. auto.
  - destruct (item_step fd st kv) as [st'|] eqn:E; simpl; [|discriminate].
    intros Hl Hk. destruct (IH _ Hl Hk) as [H | [H1 H2]].
    + destruct (item_step_keys _ _ _ _ _ _ E H) as [H' | (-> & -> & H')]; auto.
      right. split; [left; now destruct kv | exact H'].
    + right. auto.
Qed.

(** A generated name that the catalog lacks and that is not yet bound makes
    the loop over the decoded object raise. *)
Lemma item_loop_unknown_field (fd : catalog) (parsed : list (string * jvalue))
    (st : input_dict * list gen_item) (name : string) (value : jvalue) :
  In (name, value) parsed ->
  dict_get pykey_eqb (Some name) fd = None ->
  dict_get String.eqb name (fst st) = None ->
  exists e, item_loop fd parsed st = Raise e.
Proof.
  revert st. induction parsed as [|kv parsed IH]; intros st Hin Hfd Hst;
    [contradiction|]. simpl.
  destruct (item_step fd st kv) as [st'|e] eqn:E; simpl; [|eauto].
  destruct Hin as [-> | Hin].
  - exfalso. destruct st as [gi items]. simpl in Hst.
    unfold item_step, dict_mem in E. rewrite Hst, Hfd in E. discriminate.
  - apply IH; auto.
    destruct (dict_get String.eqb name (fst st')) as [v|] eqn:G; [|reflexivity].
    destruct (item_step_keys _ _ _ _ _ _ E G) as [H | (_ & _ & fi & H)]; congruence.
Qed.

Lemma strip_recaptcha_gone (form_data : catalog) :
  dict_get pykey_eqb (Some "g-recaptcha-response") (strip_recaptcha form_data) = None.
Proof.
  unfold strip_recaptcha, dict_mem.
  destruct (dict_get pykey_eqb (Some "g-recaptcha-response") form_data) eqn:E.
  - apply dict_get_del_same.
  - exact E.
Qed.

Lemma dict_get_filter_keep {V : Type} (k : pykey) (p : pykey * V -> bool)
    (d : list (pykey * V)) :
  (forall v, p (k, v) = true) ->
  dict_get pykey_eqb k (filter p d) = dict_get pykey_eqb k d.
Proof.
  intros Hp. induction d as [|[k' v'] d IH]; simpl; [reflexivity|].
  destruct (pykey_eqb k k') eqn:E.
  - apply pykey_eqb_spec in E. subst k'. rewrite Hp. simpl.
    assert (H : pykey_eqb k k = true) by now apply pykey_eqb_spec.
    now rewrite H.
  - destruct (p (k', v')); simpl; [rewrite E|]; exact IH.
Qed.

Lemma strip_recaptcha_other (form_data : catalog) (k : pykey) :
  k <> Some "g-recaptcha-response" ->
  dict_get pykey_eqb k (strip_recaptcha form_data) = dict_get pykey_eqb k form_data.
Proof.
  intros Hk. unfold strip_recaptcha.
  destruct (dict_mem pykey_eqb _ form_data); [|reflexivity].
  unfold dict_del. apply dict_get_filter_keep. intros v. cbn [fst].
  destruct (pykey_eqb (Some "g-recaptcha-response") k) eqn:E; [|reflexivity].
  apply pykey_eqb_spec in E. congruence.
Qed.

Lemma ai_input_needed_get (fd : catalog) (k : pykey) :
  dict_get pykey_eqb k (ai_input_needed fd)
  = if pykey_eqb k (Some "inquiry_content") then None else dict_get pykey_eqb k fd.
Proof.
  unfold ai_input_needed.
  destruct (pykey_eqb k (Some "inquiry_content")) eqn:E.
  - apply pykey_eqb_spec in E. subst k.
    induction fd as [|[k' v'] fd IH]; [reflexivity|]. cbn [filter fst].
    destruct (pykey_eqb k' (Some "inquiry_content")) eqn:E'; cbn [negb]; [exact IH|].
    cbn [dict_get].
    destruct (pykey_eqb (Some "inquiry_content") k') eqn:E2; [|exact IH].
    apply pykey_eqb_spec in E2. subst k'. discriminate.
  - apply dict_get_filter_keep. intros v. cbn [fst]. now rewrite E.
Qed.

(** ** Concrete answers *)

Example json_loads_flat_reads_object :
  json_loads_flat (json_object [("email", "info@example.com"); ("tel", "0312345678")])
  = Some [("email", JStr "info@example.com"); ("tel", JStr "0312345678")].
Proof. reflexivity. Qed.

Example re_search_braces_takes_outer_block :
  re_search_braces ("Here it is: " ++ json_object [("a", "b")] ++ " Done.")%string
  = Some (json_object [("a", "b")]).
Proof. reflexivity. Qed.

Lemma all_strings_some (xs : list (option string)) :
  ~ In None xs -> exists l, all_strings xs = Some l.
Proof.
  induction xs as [|[s|] xs IH]; simpl; intros H.
  - now exists [].
  - destruct IH as [l Hl]; [intros Hin; apply H; now right|].
    rewrite Hl. now exists (s :: l).
  - exfalso. apply H. now left.
Qed.

Lemma join_options_ok (xs : list (option string)) :
  ~ In None xs -> exists s, join_options xs = Ok s.
Proof.
  intros H. unfold join_options. destruct (all_strings_some xs H) as [l Hl].
  rewrite Hl. destruct xs; eauto.
Qed.

Lemma item_step_ok (fd : catalog) (st : input_dict * list gen_item)
    (k : string) (v : jvalue) :
  (exists w, dict_get String.eqb k (fst st) = Some w)
  \/ (exists fi, dict_get pykey_eqb (Some k) fd = Some fi
                 /\ ~ In None (f_options fi)) ->
  exists st1,
    item_step fd st (k, v) = Ok st1
    /\ forall n, dict_get String.eqb n (fst st1)
                 = match dict_get String.eqb n (fst st) with
                   | Some w => Some w
                   | None => if String.eqb n k then Some v else None
                   end.
Proof.
  destruct st as [gi items]. cbn [fst]. intros H. unfold item_step, dict_mem.
  destruct (dict_get String.eqb k gi) as [w|] eqn:Eg.
  - exists (gi, items). split; [reflexivity|]. intros n. cbn [fst].
    destruct (dict_get String.eqb n gi) eqn:En; [reflexivity|].
    destruct (String.eqb n k) eqn:E; [|reflexivity].
    apply String.eqb_eq in E. congruence.
  - destruct H as [[w Hw]|(fi & Hfi & Hopt)]; [discriminate|]. rewrite Hfi.
    destruct (join_options_ok (filter (fun opt => py_ne opt v) (f_options fi)))
      as [option Hj].
    { intros Hin. apply filter_In in Hin. now apply Hopt. }
    rewrite Hj. cbn [bind]. eexists. split; [reflexivity|].
    intros n. cbn [fst]. rewrite sget_set.
    destruct (String.eqb n k) eqn:E.
    + apply String.eqb_eq in E. subst n. now rewrite Eg.
    + now destruct (dict_get String.eqb n gi).
Qed.

Lemma item_loop_ok (fd : catalog) (parsed : list (string * jvalue))
    (st : input_dict * list gen_item) :
  (forall k v, In (k, v) parsed ->
     (exists w, dict_get String.eqb k (fst st) = Some w)
     \/ (exists fi, dict_get pykey_eqb (Some k) fd = Some fi
                    /\ ~ In None (f_options fi))) ->
  exists st1,
    item_loop fd parsed st = Ok st1
    /\ forall n, dict_get String.eqb n (fst st1)
                 = match dict_get String.eqb n (fst st) with
                   | Some w => Some w
                   | None => dict_get String.eqb n parsed
                   end.
Proof.
  revert st. induction parsed as [|[k v] parsed IH]; intros st H.
  - exists st. split; [reflexivity|]. intros n. cbn [dict_get].
    now destruct (dict_get String.eqb n (fst st)).
  - destruct (item_step_ok fd st k v (H k v (or_introl eq_refl)))
      as (st' & Hstep & Hget).
    destruct (IH st') as (st1 & Hloop & Hget1).
    { intros k' v' Hin. destruct (H k' v' (or_intror Hin)) as [[w Hw]|Hcat];
        [left | now right].
      exists w. now rewrite Hget, Hw. }
    exists st1. cbn [item_loop]. rewrite Hstep. cbn [bind].
    split; [exact Hloop|]. intros n. rewrite Hget1, Hget. cbn [dict_get].
    destruct (dict_get String.eqb n (fst st)); [reflexivity|].
    now destruct (String.eqb n k).
Qed.

(** C5, as the code has it. On a run without cached mapping and with a
    non-empty supplied inquiry text: the supplied-content provenance label
    is recorded for the field named [inquiry_content] and for no other
    field; that name and [g-recaptcha-response] are left out of the fields
    sent to generation and every other catalog field is sent, in exactly one
    request when there is such a field and in none otherwise. The run
    returns an input set when nothing needs generating, and when the answer
    decodes to names that are [inquiry_content] or catalog fields all of
    whose options are texts; whenever it returns one, the supplied text is
    bound to [inquiry_content], the answer cannot replace it, and the other
    decoded names are bound to the generated values. It returns none only on
    the generation path, with the status [input_generation_failed]. *)
Theorem supplied_content_goes_to_inquiry_content
    (ai : ai_request -> ai_outcome)
    (json_loads : string -> option (list (string * jvalue)))
    (form_data : catalog) (existing : mappings) (company content : string) :
  dict_get String.eqb company existing = None ->
  content <> EmptyString ->
  let res := generate_form_input ai json_loads form_data existing company
               (Some content) in
  let needed := ai_input_needed (strip_recaptcha form_data) in
  let req := {| req_fields := needed; req_inquiry := Some content |} in
  r_field_sources res = [("inquiry_content", "CSVからの入力")]
  /\ (forall k, dict_get pykey_eqb k needed
                = if pykey_eqb k (Some "inquiry_content")
                     || pykey_eqb k (Some "g-recaptcha-response")
                  then None else dict_get pykey_eqb k form_data)
  /\ r_requests res = match needed with [] => [] | _ :: _ => [req] end
  /\ (needed = [] ->
      r_generated_input res = Some [("inquiry_content", JStr content)]
      /\ r_status res = "all_fill_from_csv")
  /\ (forall answer json_str parsed,
        needed <> [] ->
        ai req = AiAnswer answer ->
        re_search_braces answer = Some json_str ->
        json_loads json_str = Some parsed ->
        (forall k v, In (k, v) parsed ->
           k = "inquiry_content"
           \/ (k <> "g-recaptcha-response"
               /\ exists fi, dict_get pykey_eqb (Some k) form_data = Some fi
                             /\ ~ In None (f_options fi))) ->
        exists g,
          r_generated_input res = Some g
          /\ r_status res = "all_input_from_ai"
          /\ dict_get String.eqb "inquiry_content" g = Some (JStr content)
          /\ forall k, k <> "inquiry_content" ->
                       dict_get String.eqb k g = dict_get String.eqb k parsed)
  /\ (forall g, r_generated_input res = Some g ->
        dict_get String.eqb "inquiry_content" g = Some (JStr content))
  /\ (r_generated_input res = None ->
      needed <> [] /\ r_status res = "input_generation_failed").
Proof.
  intros Hmiss Hne res needed req.
  destruct (no_cache_cases ai json_loads form_data existing company (Some content) Hmiss)
    as (_ & Hfs & Hcases). fold res in Hfs, Hcases. fold needed in Hcases.
  assert (Ht : truthy_str (Some content) = true)
    by (destruct content; [contradiction | reflexivity]).
  unfold supplied_sources, supplied_input, request_of in *. rewrite Ht in *.
  cbn [or_empty] in *. fold needed in Hcases. fold req in Hcases.
  split; [exact Hfs|]. split.
  { intros k. unfold needed. rewrite ai_input_needed_get.
    destruct (pykey_eqb k (Some "inquiry_content")); [reflexivity|]. cbn [orb].
    destruct (pykey_eqb k (Some "g-recaptcha-response")) eqn:E.
    - apply pykey_eqb_spec in E. subst k. apply strip_recaptcha_gone.
    - apply strip_recaptcha_other. intros ->. discriminate. }
  split.
  { destruct Hcases as [(Hn & Hr & _) | (Hn & Hr & _)]; rewrite Hr.
    - now rewrite Hn.
    - now destruct needed. }
  split.
  { intros Hn. destruct Hcases as [(_ & _ & Hg & Hs & _) | (Hn' & _)];
      [now split | contradiction]. }
  split.
  { intros answer json_str parsed Hn Ha Hm Hj Hparsed.
    destruct (item_loop_ok (strip_recaptcha form_data) parsed
                ([("inquiry_content", JStr content)], []))
      as ([g items] & Hloop & Hget).
    { intros k v Hin. destruct (Hparsed k v Hin) as [->|(Hk & fi & Hfi & Hopt)].
      - left. now exists (JStr content).
      - right. exists fi. split; [|exact Hopt].
        rewrite strip_recaptcha_other; [exact Hfi|]. intros [= ->]. now apply Hk. }
    exists g.
    assert (Hres : r_generated_input res = Some g
                   /\ r_status res = "all_input_from_ai").
    { subst res. unfold generate_form_input. rewrite Hmiss, Ht. cbn [or_empty].
      fold needed. fold needed in Ha. unfold req in Ha.
      destruct needed as [|kv rest]; [contradiction|].
      rewrite Ha, Hm, Hj, Hloop. now split. }
    destruct Hres as [Hg Hs]. split; [exact Hg|]. split; [exact Hs|].
    cbn [fst] in Hget. split.
    - rewrite Hget. reflexivity.
    - intros k Hk. rewrite Hget. cbn [dict_get].
      apply String.eqb_neq in Hk. now rewrite Hk. }
  split.
  { intros g Hg.
    destruct Hcases as [(_ & _ & Hgi & _) | (_ & _ & [(Hgi & _) | Hok])].
    - rewrite Hgi in Hg. now injection Hg as <-.
    - congruence.
    - destruct Hok as (answer & json_str & parsed & gi & items & _ & _ & _ & Hl & Hgi & _).
      rewrite Hgi in Hg. injection Hg as <-.
      apply (item_loop_keeps _ _ _ _ _ _ Hl). reflexivity. }
  intros Hnone.
  destruct Hcases as [(_ & _ & Hgi & _) | (Hn & _ & [(_ & Hs & _) | Hok])].
  - congruence.
  - now split.
  - destruct Hok as (a & j & p & gi & items & _ & _ & _ & _ & Hgi & _). congruence.
Qed.

Lemma supplied_content_goes_to_inquiry_content_witness :
  let res := generate_form_input (fun _ => AiAnswer contact_answer) json_loads_flat
               contact_catalog [] "Acme" (Some "Please contact us.") in
  r_field_sources res = [("inquiry_content", "CSVからの入力")]
  /\ r_requests res
     = [ {| req_fields := contact_catalog;
            req_inquiry := Some "Please contact us." |} ]
  /\ exists g,
       r_generated_input res = Some g
       /\ r_status res = "all_input_from_ai"
       /\ dict_get String.eqb "inquiry_content" g = Some (JStr "Please contact us.")
       /\ forall k, k <> "inquiry_content" ->
                    dict_get String.eqb k g
                    = dict_get String.eqb k
                        [("full_name", JStr "Taro Yamada");
                         ("email", JStr "taro@example.com");
                         ("message", JStr "Hello")].
Proof.
  destruct (supplied_content_goes_to_inquiry_content
              (fun _ => AiAnswer contact_answer) json_loads_flat contact_catalog
              [] "Acme" "Please contact us.") as (H1 & _ & H3 & _ & H5 & _).
  - reflexivity.
  - discriminate.
  - split; [exact H1|]. split; [exact H3|].
    apply (H5 contact_answer contact_answer).
    + discriminate.
    + reflexivity.
    + reflexivity.
    + reflexivity.
    + intros k v [[= <- <-]|[[= <- <-]|[[= <- <-]|[]]]]; right;
        (split; [discriminate|]); eexists; (split; [reflexivity|]); intros [].
Defined.

(** C5 as stated fails on its own example: with the catalog
    [full_name], [email], [message] and a supplied text, [message] is sent to
    generation and bound to the generated value, the supplied text sits
    under [inquiry_content], and neither [message] nor [full_name] nor
    [email] has a provenance entry. *)
Lemma message_is_not_bound_to_supplied_content :
  let res := generate_form_input (fun _ => AiAnswer contact_answer) json_loads_flat
               contact_catalog [] "Acme" (Some "Please contact us.") in
  r_status res = "all_input_from_ai"
  /\ r_generated_input res
     = Some [("inquiry_content", JStr "Please contact us.");
             ("full_name", JStr "Taro Yamada");
             ("email", JStr "taro@example.com");
             ("message", JStr "Hello")]
  /\ r_field_sources res = [("inquiry_content", "CSVからの入力")]
  /\ dict_get String.eqb "message" (r_field_sources res) = None
  /\ dict_get String.eqb "full_name" (r_field_sources res) = None
  /\ dict_get String.eqb "email" (r_field_sources res) = None
  /\ map req_fields (r_requests res) = [contact_catalog].
Proof. vm_compute. repeat split. Qed.

(** C6 on the code: a decoded object that names a field the catalog lacks
    ends synthesis with [input_generation_failed] and no result set, where
    the same answer without that field resolves [email]. *)
Theorem unknown_generated_field_aborts_synthesis :
  let good := json_object [("email", "info@example.com")] in
  let extra := json_object [("email", "info@example.com"); ("phone", "0312345678")] in
  let run answer := generate_form_input (fun _ => AiAnswer answer) json_loads_flat
                      email_catalog [] "Acme" None in
  json_loads_flat extra
    = Some [("email", JStr "info@example.com"); ("phone", JStr "0312345678")]
  /\ dict_get pykey_eqb (Some "phone") email_catalog = None
  /\ r_generated_input (run good) = Some [("email", JStr "info@example.com")]
  /\ r_status (run good) = "all_input_from_ai"
  /\ r_generated_input (run extra) = None
  /\ r_status (run extra) = "input_generation_failed"
  /\ r_generate_item (run extra) = None.
Proof. vm_compute. repeat split. Qed.

(** The same for every run on the generation path: a decoded name that is
    neither in the catalog nor already bound ends it in failure. *)
Lemma unknown_generated_field_fails
    (ai : ai_request -> ai_outcome)
    (json_loads : string -> option (list (string * jvalue)))
    (form_data : catalog) (existing : mappings) (company : string)
    (content : option string) (answer json_str name : string)
    (parsed : list (string * jvalue)) (value : jvalue) :
  dict_get String.eqb company existing = None ->
  ai_input_needed (strip_recaptcha form_data) <> [] ->
  ai (request_of form_data content) = AiAnswer answer ->
  re_search_braces answer = Some json_str ->
  json_loads json_str = Some parsed ->
  In (name, value) parsed ->
  dict_get pykey_eqb (Some name) (strip_recaptcha form_data) = None ->
  name <> "inquiry_content" ->
  let res := generate_form_input ai json_loads form_data existing company content in
  r_generated_input res = None
  /\ r_status res = "input_generation_failed"
  /\ r_generate_item res = None.
Proof.
  intros Hmiss Hneed Ha Hm Hj Hin Hfd Hname res.
  destruct (no_cache_cases ai json_loads form_data existing company content Hmiss)
    as (_ & _ & Hcases). fold res in Hcases.
  assert (Hraise : exists e,
             item_loop (strip_recaptcha form_data) parsed (supplied_input content, [])
             = Raise e).
  { apply (item_loop_unknown_field _ _ _ name value Hin Hfd).
    unfold supplied_input. destruct (truthy_str content); [|reflexivity].
    simpl. apply String.eqb_neq in Hname. now rewrite Hname. }
  destruct Hraise as [e He].
  destruct Hcases as [(Hn & _) | (_ & _ & [Hfail | Hok])].
  - contradiction.
  - exact Hfail.
  - destruct Hok as (a & js & p & gi & items & Ha' & Hm' & Hj' & Hl & _).
    rewrite Ha in Ha'. injection Ha' as <-. rewrite Hm in Hm'. injection Hm' as <-.
    rewrite Hj in Hj'. injection Hj' as <-. congruence.
Qed.

(** ** Catalog extraction *)

Section DictInvariants.
Context {K V : Type}.
Variable eqb : K -> K -> bool.

Lemma dict_set_In_value (k a : K) (v b : V) (d : list (K * V)) :
  In (a, b) (dict_set eqb k v d) -> b = v \/ In (a, b) d.
Proof.
  induction d as [|[k' v'] d IH]; simpl.
  - intros [[= <- <-]|[]]. now left.
  - destruct (eqb k k'); simpl.
    + intros [[= <- <-]|H]; auto.
    + intros [H|H]; auto. destruct (IH H); auto.
Qed.

Lemma dict_set_In_key (k a : K) (v b : V) (d : list (K * V)) :
  In (a, b) (dict_set eqb k v d) -> a = k \/ exists b0, In (a, b0) d.
Proof.
  induction d as [|[k' v'] d IH]; simpl.
  - intros [[= <- <-]|[]]. now left.
  - destruct (eqb k k'); simpl.
    + intros [[= <- <-]|H]; right; eauto.
    + intros [[= <- <-]|H]; [right; eauto|].
      destruct (IH H) as [->|[b0 H0]]; [now left | right; eauto].
Qed.
End DictInvariants.

Lemma fold_left_invariant {A B : Type} (P : A -> Prop) (f : A -> B -> A)
    (l : list B) (init : A) :
  (forall acc x, In x l -> P acc -> P (f acc x)) ->
  P init -> P (fold_left f l init).
Proof.
  revert init. induction l as [|x l IH]; intros init Hstep Hinit; simpl; [exact Hinit|].
  apply IH.
  - intros acc y Hy. apply Hstep. now right.
  - apply Hstep; [now left | exact Hinit].
Qed.

Lemma truthy_str_some (n : string) : n <> EmptyString -> truthy_str (Some n) = true.
Proof. destruct n; [contradiction | reflexivity]. Qed.

Lemma pykey_eqb_refl (k : pykey) : pykey_eqb k k = true.
Proof. now apply pykey_eqb_spec. Qed.

Lemma textarea_step_captcha (fd : catalog) (e : element) (n : string) :
  e_name e = Some n -> n <> EmptyString -> captcha_name n = true ->
  dict_get pykey_eqb (Some n) (textarea_step fd e) = Some captcha_info.
Proof.
  intros Hn Hne Hc. unfold textarea_step. rewrite Hn.
  rewrite (truthy_str_some n Hne). cbn [or_empty andb]. rewrite Hc.
  now rewrite kget_set, pykey_eqb_refl.
Qed.

Lemma textarea_step_keeps_captcha (fd : catalog) (e : element) (n : string) :
  captcha_name n = true ->
  dict_get pykey_eqb (Some n) fd = Some captcha_info ->
  dict_get pykey_eqb (Some n) (textarea_step fd e) = Some captcha_info.
Proof.
  intros Hc Hfd. unfold textarea_step.
  destruct (truthy_str (e_name e)) eqn:Et; cbn [andb]; [|exact Hfd].
  destruct (captcha_name (or_empty (e_name e))) eqn:Ec; rewrite kget_set.
  - now destruct (pykey_eqb (Some n) (e_name e)).
  - destruct (pykey_eqb (Some n) (e_name e)) eqn:E; [|exact Hfd].
    apply pykey_eqb_spec in E. rewrite <- E in Ec. simpl in Ec. congruence.
Qed.

Lemma textarea_fold_captcha (l : list element) (fd : catalog) (e : element)
    (n : string) :
  In e l -> e_name e = Some n -> n <> EmptyString -> captcha_name n = true ->
  dict_get pykey_eqb (Some n) (fold_left textarea_step l fd) = Some captcha_info.
Proof.
  intros Hin Hn Hne Hc. revert fd Hin.
  induction l as [|a l IH]; intros fd Hin; [contradiction|]. simpl.
  destruct Hin as [->|Hin]; [|now apply IH].
  apply (fold_left_invariant
           (fun d => dict_get pykey_eqb (Some n) d = Some captcha_info)).
  - intros acc x _. now apply textarea_step_keeps_captcha.
  - now apply textarea_step_captcha.
Qed.

Lemma values_sat_set (P : field_info -> Prop) (k : pykey) (fi : field_info)
    (d : catalog) :
  P fi -> values_sat P d -> values_sat P (dict_set pykey_eqb k fi d).
Proof.
  intros Hfi Hd a b Hin. apply dict_set_In_value in Hin.
  destruct Hin as [->|Hin]; [exact Hfi | eapply Hd; eauto].
Qed.

Lemma values_sat_nil (P : field_info -> Prop) : values_sat P [].
Proof. intros k fi []. Qed.


(** Apart from checkboxes, no step of the extractor creates an entry for an
    element without a name: when every checkbox of the form has a non-empty
    name, every key of the catalog is a non-empty name. *)
Lemma extracted_keys_named (soup : list element) :
  (forall e, In e (find_inputs ["checkbox"] soup) -> truthy_str (e_name e) = true) ->
  forall k fi, In (k, fi) (extract_form_data (Some soup)) -> truthy_str k = true.
Proof.
  intros Hcb. unfold extract_form_data.
  set (P := fun d : catalog => forall k fi, In (k, fi) d -> truthy_str k = true).
  assert (Hset : forall k fi d, truthy_str k = true -> P d ->
                                P (dict_set pykey_eqb k fi d)).
  { intros k fi d Hk Hd a b Hin. apply dict_set_In_key in Hin.
    destruct Hin as [->|[b0 Hin]]; [exact Hk | eapply Hd; eauto]. }
  assert (Hnil : P []) by (intros k fi []).
  change (P (fold_left textarea_step (find_tag TTextarea soup)
     (fold_left checkbox_step (find_inputs ["checkbox"] soup)
        (dict_update pykey_eqb
           (fold_left select_step (find_tag TSelect soup)
              (fold_left text_step (find_inputs ["text"; "email"; "tel"] soup) []))
           (fold_left radio_step (find_inputs ["radio"] soup) []))))).
  apply fold_left_invariant.
  { intros acc x _ H. unfold textarea_step.
    destruct (truthy_str (e_name x)) eqn:E; cbn [andb]; [|exact H].
    destruct (captcha_name _); apply Hset; auto. }
  apply fold_left_invariant.
  { intros acc x Hx H. unfold checkbox_step.
    destruct (_ && _); apply Hset; auto. }
  unfold dict_update.
  assert (Hradio : P (fold_left radio_step (find_inputs ["radio"] soup) [])).
  { apply fold_left_invariant; [|exact Hnil].
    intros acc x _ H. unfold radio_step.
    destruct (truthy_str (e_name x)) eqn:E; [|exact H].
    set (g1 := if dict_mem pykey_eqb (e_name x) acc then acc else _).
    assert (H1 : P g1).
    { unfold g1. destruct (dict_mem pykey_eqb (e_name x) acc); auto. }
    destruct (dict_get pykey_eqb (e_name x) g1); auto. }
  apply fold_left_invariant.
  { intros acc [k fi] Hin H. apply Hset; [|exact H]. simpl. eapply Hradio; eauto. }
  apply fold_left_invariant.
  { intros acc x _ H. unfold select_step.
    destruct (truthy_str (e_name x)) eqn:E; auto. }
  apply fold_left_invariant; [|exact Hnil].
  intros acc x _ H. unfold text_step.
  destruct (truthy_str (e_name x)) eqn:E; auto.
Qed.

(** C1, as the code has it. A [textarea] whose name contains [captcha] or
    [g-recaptcha-response] (case-insensitive) is classified [captcha] and
    required in the extracted catalog. The synthesizer removes the field
    named exactly [g-recaptcha-response] from the catalog: that field is in
    no generative request and, on a run without cached mapping, in no
    returned input set. *)
Theorem captcha_textarea_and_recaptcha_strip
    (ai : ai_request -> ai_outcome)
    (json_loads : string -> option (list (string * jvalue)))
    (soup : list element) (e : element) (n : string)
    (existing : mappings) (company : string) (content : option string) :
  In e soup -> e_tag e = TTextarea -> e_name e = Some n ->
  n <> EmptyString -> captcha_name n = true ->
  let form_data := extract_form_data (Some soup) in
  let res := generate_form_input ai json_loads form_data existing company content in
  dict_get pykey_eqb (Some n) form_data = Some captcha_info
  /\ f_type captcha_info = "captcha"
  /\ dict_get pykey_eqb (Some recaptcha_key) (r_form_data res) = None
  /\ (forall req, In req (r_requests res) ->
        dict_get pykey_eqb (Some recaptcha_key) (req_fields req) = None)
  /\ (dict_get String.eqb company existing = None ->
      forall g, r_generated_input res = Some g ->
                dict_get String.eqb recaptcha_key g = None).
Proof.
  intros Hin Htag Hn Hne Hc form_data res.
  split.
  { unfold form_data, extract_form_data. apply (textarea_fold_captcha _ _ e); auto.
    unfold find_tag. apply filter_In. split; [exact Hin|].
    unfold is_tag. now rewrite Htag. }
  split; [reflexivity|].
  destruct (dict_get String.eqb company existing) as [records|] eqn:Ex.
  - subst res. rewrite (generate_form_input_on_hit _ _ _ _ _ _ _ Ex). simpl.
    split; [apply strip_recaptcha_gone|]. split; [intros req []|discriminate].
  - destruct (no_cache_cases ai json_loads form_data existing company content Ex)
      as (Hfd & _ & Hcases). fold res in Hfd, Hcases.
    split; [rewrite Hfd; apply strip_recaptcha_gone|]. split.
    + intros req Hreq.
      destruct Hcases as [(_ & Hr & _) | (_ & Hr & _)]; rewrite Hr in Hreq;
        [contradiction|].
      destruct Hreq as [<-|[]]. simpl. rewrite ai_input_needed_get.
      cbn [pykey_eqb recaptcha_key]. apply strip_recaptcha_gone.
    + intros _ g Hg.
      assert (Hsup : dict_get String.eqb recaptcha_key (supplied_input content) = None).
      { unfold supplied_input. now destruct (truthy_str content). }
      destruct Hcases as [(_ & _ & Hgi & _) | (_ & _ & [(Hgi & _) | Hok])].
      * rewrite Hgi in Hg. injection Hg as <-. exact Hsup.
      * congruence.
      * destruct Hok as (answer & js & parsed & gi & items & _ & _ & _ & Hl & Hgi & _).
        rewrite Hgi in Hg. injection Hg as <-.
        destruct (dict_get String.eqb recaptcha_key gi) as [v|] eqn:G; [|reflexivity].
        destruct (item_loop_keys _ _ _ _ _ _ Hl G) as [H | (_ & fi & H)].
        -- simpl in H. congruence.
        -- unfold recaptcha_key in H. rewrite strip_recaptcha_gone in H. discriminate.
Qed.

Lemma captcha_textarea_and_recaptcha_strip_witness :
  let form_data := extract_form_data (Some recaptcha_form) in
  let res := generate_form_input
               (fun _ => AiAnswer (json_object [("email", "info@example.com")]))
               json_loads_flat form_data [] "Acme" None in
  dict_get pykey_eqb (Some "g-recaptcha-response") form_data = Some captcha_info
  /\ f_type captcha_info = "captcha"
  /\ dict_get pykey_eqb (Some recaptcha_key) (r_form_data res) = None
  /\ (forall req, In req (r_requests res) ->
        dict_get pykey_eqb (Some recaptcha_key) (req_fields req) = None)
  /\ (dict_get String.eqb "Acme" ([] : mappings) = None ->
      forall g, r_generated_input res = Some g ->
                dict_get String.eqb recaptcha_key g = None).
Proof.
  apply (captcha_textarea_and_recaptcha_strip
           (fun _ => AiAnswer (json_object [("email", "info@example.com")]))
           json_loads_flat recaptcha_form
           (control TTextarea None (Some "g-recaptcha-response"))
           "g-recaptcha-response" [] "Acme" None).
  - simpl. auto.
  - reflexivity.
  - reflexivity.
  - discriminate.
  - reflexivity.
Defined.

(** C1 as stated fails. A text input whose name contains [captcha] is
    classified [text]; and a text area classified [captcha] under another
    name than [g-recaptcha-response] is sent to generation and bound in the
    returned input set. *)
Lemma captcha_named_fields_reach_generation :
  let form_data := extract_form_data (Some captcha_named_form) in
  let answer := json_object [("captcha_code", "1234"); ("image_captcha", "abcd")] in
  let res := generate_form_input (fun _ => AiAnswer answer) json_loads_flat
               form_data [] "Acme" None in
  captcha_name "captcha_code" = true
  /\ captcha_name "image_captcha" = true
  /\ form_data = [(Some "captcha_code", plain_info "text" false);
                  (Some "image_captcha", captcha_info)]
  /\ map req_fields (r_requests res) = [form_data]
  /\ r_generated_input res
     = Some [("captcha_code", JStr "1234"); ("image_captcha", JStr "abcd")].
Proof. vm_compute. repeat split. Qed.

(** C9 on the code: a checkbox without a [name] attribute, or with an empty
    one, gets a catalog entry under the key [None], or under the empty
    name, where a text input, select, radio button or text area without a
    name gets none. *)
Theorem nameless_checkbox_gets_an_entry :
  let entry := {| f_type := "checkbox"; f_required := false; f_max_length := None;
                  f_placeholder := None; f_options := []; f_value := None;
                  f_purpose := None |} in
  extract_form_data (Some [control TInput (Some "checkbox") None])
    = [(None, entry)]
  /\ extract_form_data (Some [control TInput (Some "checkbox") (Some EmptyString)])
    = [(Some EmptyString, entry)]
  /\ extract_form_data
       (Some [control TInput (Some "text") None; control TSelect None None;
              control TInput (Some "radio") None; control TTextarea None None])
    = [].
Proof. vm_compute. repeat split. Qed.

(** ** Form filling *)


Section FillFormFacts.
Variable R : Type.
Variable drive : string -> string -> jvalue -> R -> outcome R.
Variable clickable : string -> bool.
Variable handle_recaptcha : R -> R * (bool * string).

Local Abbreviation box name p := (dict_get String.eqb name (checkboxes p)).




Section Agreement.
Variable form_data : catalog.
Variable name : string.
Variable fi : field_info.
Hypothesis Hentry : dict_get pykey_eqb (Some name) form_data = Some fi.
Hypothesis Hkind : f_type fi = "checkbox".
Hypothesis Hpurpose : f_purpose fi = Some "agreement".




End Agreement.


End FillFormFacts.



(** ** Batch coordinator *)

Lemma on_worker_error_raises (now : string) (e : exn) :
  App.on_worker_error now e = Raise (NameError "time").
Proof. reflexivity. Qed.

Lemma collect_all_ok (now : string) (rs acc : list App.result) :
  App.collect now (map Ok rs) acc = Ok (acc ++ rs).
Proof.
  revert acc. induction rs as [|r rs IH]; intros acc; simpl.
  - now rewrite app_nil_r.
  - rewrite IH. now rewrite <- app_assoc.
Qed.

Lemma collect_raises (now : string) (before : list App.result) (e : exn)
    (after : list (outcome App.result)) (acc : list App.result) :
  App.collect now (map Ok before ++ Raise e :: after) acc = Raise (NameError "time").
Proof.
  revert acc. induction before as [|r rs IH]; intros acc; simpl.
  - reflexivity.
  - apply IH.
Qed.

(** C3 on the code: the handler that should turn a worker's exception into
    a synthetic result reads the name [time], which [app.py] never binds,
    so the handler itself raises and the collection loop is left: whenever
    some worker raises, no result is returned at all, as for a batch of ten
    tasks whose third raises. When no worker raises, there is one result per
    task. *)
Theorem worker_exception_aborts_the_batch :
  existsb (String.eqb "time") App.module_globals = false
  /\ (forall now before e after,
        App.submit_forms now (map Ok before ++ Raise e :: after)
        = Raise (NameError "time"))
  /\ (forall now rs, App.submit_forms now (map Ok rs) = Ok rs)
  /\ App.submit_forms "2024/01/01 00:00"
       [Ok (task_result "u1"); Ok (task_result "u2");
        Raise (WorkerError "unexpected");
        Ok (task_result "u4"); Ok (task_result "u5"); Ok (task_result "u6");
        Ok (task_result "u7"); Ok (task_result "u8"); Ok (task_result "u9");
        Ok (task_result "u10")]
     = Raise (NameError "time").
Proof.
  split; [reflexivity|]. split; [|split].
  - intros. apply collect_raises.
  - intros. unfold App.submit_forms. now rewrite collect_all_ok.
  - reflexivity.
Qed.

(** ** Upload checks *)

Lemma filter_nil_iff {A : Type} (f : A -> bool) (l : list A) :
  filter f l = [] <-> forall x, In x l -> f x = false.
Proof.
  induction l as [|a l IH]; simpl.
  - split; [intros _ x [] | reflexivity].
  - destruct (f a) eqn:E.
    + split; [discriminate|]. intros H. rewrite (H a) in E; [discriminate | now left].
    + rewrite IH. split.
      * intros H x [<-|Hx]; auto.
      * intros H x Hx. apply H. now right.
Qed.

Lemma existsb_eqb_In (c : string) (l : list string) :
  existsb (String.eqb c) l = true <-> In c l.
Proof.
  rewrite existsb_exists. split.
  - intros (x & Hx & E). apply String.eqb_eq in E. now subst.
  - intros H. exists c. split; [exact H | apply String.eqb_refl].
Qed.

Lemma verify_columns_true (columns required : list string) :
  verify_columns columns required = true
  <-> forall col, In col required -> In col columns.
Proof.
  unfold verify_columns.
  destruct (filter _ required) as [|m ms] eqn:E.
  - split; [|reflexivity]. intros _ col Hin.
    apply (proj1 (filter_nil_iff _ _) E) in Hin.
    apply negb_false_iff in Hin. now apply existsb_eqb_In.
  - split; [discriminate|]. intros H. exfalso.
    assert (Hm : In m (filter (fun col => negb (existsb (String.eqb col) columns)) required))
      by (rewrite E; now left).
    apply filter_In in Hm. destruct Hm as [Hin Hneg].
    apply negb_true_iff in Hneg. apply H, existsb_eqb_In in Hin. congruence.
Qed.

(** X1. [verify_columns] answers [True] exactly when every required column
    is among the columns of the frame, and [False] exactly when some
    required column is missing. *)
Theorem verify_columns_iff (columns required : list string) :
  (verify_columns columns required = true
   <-> forall col, In col required -> In col columns)
  /\ (verify_columns columns required = false
      <-> exists col, In col required /\ ~ In col columns).
Proof.
  split; [apply verify_columns_true|]. split.
  - unfold verify_columns.
    destruct (filter _ required) as [|m ms] eqn:E; [discriminate|]. intros _.
    assert (Hm : In m (filter (fun col => negb (existsb (String.eqb col) columns))
                         required)) by (rewrite E; now left).
    apply filter_In in Hm. destruct Hm as [Hin Hneg]. exists m. split; [exact Hin|].
    intros Hc. apply existsb_eqb_In in Hc. rewrite Hc in Hneg. discriminate.
  - intros (col & Hin & Hnot).
    destruct (verify_columns columns required) eqn:E; [|reflexivity].
    exfalso. apply Hnot. now apply (proj1 (verify_columns_true _ _) E).
Qed.

Lemma endswith_iff (suffix s : string) :
  endswith suffix s = true <-> exists pre, s = (pre ++ suffix)%string.
Proof.
  split.
  - induction s as [|c r IH]; simpl.
    + destruct (String.eqb suffix EmptyString) eqn:E; [|discriminate].
      apply String.eqb_eq in E. subst. now exists EmptyString.
    + destruct (String.eqb suffix (String c r)) eqn:E.
      * apply String.eqb_eq in E. subst. now exists EmptyString.
      * intros H. destruct (IH H) as [pre ->]. now exists (String c pre).
  - intros [pre ->]. induction pre as [|c pre IH]; cbn [append].
    + destruct suffix; cbn [endswith]; now rewrite String.eqb_refl.
    + cbn [endswith]. now destruct (String.eqb suffix (String c (pre ++ suffix))).
Qed.

(** X2. An upload passes the checks of [submit_forms] exactly when a file is
    present, its name ends in [.csv] (lower case), [pd.read_csv] reads it,
    and the four required columns are all among its columns; every other
    request is answered with an error text before any task runs. *)
Theorem check_upload_passes_iff (file : option upload) :
  check_upload file = None
  <-> exists f stem columns,
        file = Some f
        /\ up_filename f = (stem ++ ".csv")%string
        /\ up_read_csv f = inr columns
        /\ forall col, In col required_columns -> In col columns.
Proof.
  split.
  - unfold check_upload. destruct file as [f|]; [|discriminate].
    destruct (String.eqb (up_filename f) EmptyString); [discriminate|].
    destruct (endswith ".csv" (up_filename f)) eqn:Ee; [|discriminate].
    cbn [negb]. destruct (up_read_csv f) as [e|columns] eqn:Er; [discriminate|].
    destruct (verify_columns columns required_columns) eqn:Ev; [|discriminate].
    intros _. apply endswith_iff in Ee. destruct Ee as [stem Hs].
    exists f, stem, columns. repeat split; auto.
    now apply verify_columns_true.
  - intros (f & stem & columns & -> & Hn & Hr & Hc). unfold check_upload.
    rewrite Hr.
    assert (He : endswith ".csv" (up_filename f) = true)
      by (apply endswith_iff; eauto).
    rewrite He. apply verify_columns_true in Hc. rewrite Hc.
    rewrite Hn. now destruct stem.
Qed.

(** X3. The pool size is between 1 and 4 whatever [os.cpu_count()] reports
    (also [None] or 0), and never exceeds a positive processor count. *)
Theorem max_workers_bounds (cpu_count : option nat) :
  1 <= max_workers cpu_count <= 4
  /\ (forall n, cpu_count = Some n -> 0 < n -> max_workers cpu_count <= n).
Proof.
  unfold max_workers. split.
  - destruct cpu_count as [[|n]|]; lia.
  - intros n -> Hn. destruct n; lia.
Qed.

(** ** CAPTCHA handling *)

Lemma take_key_chars (s : string) :
  forallb is_key_char (list_ascii_of_string (take_key s)) = true.
Proof.
  induction s as [|c r IH]; simpl; [reflexivity|].
  destruct (is_key_char c) eqn:E; simpl; [now rewrite E | reflexivity].
Qed.

Lemma take_key_split (s : string) :
  exists post, s = (take_key s ++ post)%string
               /\ match post with
                  | EmptyString => True
                  | String c _ => is_key_char c = false
                  end.
Proof.
  induction s as [|c r IH]; simpl.
  - now exists EmptyString.
  - destruct (is_key_char c) eqn:E.
    + destruct IH as (post & Hs & Hp). exists post. split; [|exact Hp].
      simpl. now rewrite <- Hs.
    + exists (String c r). now split.
Qed.

(** X4. When a site key is found in the frame's [src], it is a non-empty
    run of letters, digits, underscores and hyphens that follows an
    occurrence of [k=] and is not followed by another such character; when
    none is found, no [k=] of the text is followed by such a character. *)
Theorem search_site_key_result (src : string) :
  match search_site_key src with
  | Some key =>
      key <> EmptyString
      /\ forallb is_key_char (list_ascii_of_string key) = true
      /\ exists pre post,
           src = (pre ++ "k=" ++ key ++ post)%string
           /\ match post with
              | EmptyString => True
              | String c _ => is_key_char c = false
              end
  | None =>
      forall pre c rest,
        src = (pre ++ "k=" ++ String c rest)%string -> is_key_char c = false
  end.
Proof.
  induction src as [|c r IH]; cbn [search_site_key].
  - intros [|a pre] c rest H; discriminate.
  - destruct r as [|d rest].
    + intros [|a [|b pre]] c0 rest0 H; discriminate.
    + assert (Hskip :
        match search_site_key (String d rest) with
        | Some key =>
            key <> EmptyString
            /\ forallb is_key_char (list_ascii_of_string key) = true
            /\ exists pre post,
                 String c (String d rest) = (pre ++ "k=" ++ key ++ post)%string
                 /\ match post with
                    | EmptyString => True
                    | String c1 _ => is_key_char c1 = false
                    end
        | None =>
            (Ascii.eqb c "k" && Ascii.eqb d "=" = true ->
             take_key rest = EmptyString) ->
            forall pre c0 rest0,
              String c (String d rest) = (pre ++ "k=" ++ String c0 rest0)%string ->
              is_key_char c0 = false
        end).
      { destruct (search_site_key (String d rest)) as [key|].
        - destruct IH as (Hne & Hch & pre & post & Hs & Hp).
          split; [exact Hne|]. split; [exact Hch|].
          exists (String c pre), post. split; [|exact Hp]. simpl. now rewrite Hs.
        - intros Hhead pre c0 rest0 H. destruct pre as [|a pre].
          + simpl in H. injection H as -> -> ->.
            specialize (Hhead eq_refl). simpl in Hhead.
            destruct (is_key_char c0); [discriminate | reflexivity].
          + simpl in H. injection H as _ H. exact (IH _ _ _ H). }
      destruct (Ascii.eqb c "k" && Ascii.eqb d "=") eqn:Ekd.
      * destruct (take_key rest) as [|k0 ks] eqn:Et.
        -- destruct (search_site_key (String d rest)); [exact Hskip|].
           apply Hskip. reflexivity.
        -- apply andb_true_iff in Ekd. destruct Ekd as [Ec Ed].
           apply Ascii.eqb_eq in Ec, Ed. subst c d. cbv beta iota.
           split; [discriminate|]. split; [rewrite <- Et; apply take_key_chars|].
           destruct (take_key_split rest) as (post & Hs & Hp).
           exists EmptyString, post. split; [|exact Hp].
           rewrite <- Et. simpl. now rewrite <- Hs.
      * destruct (search_site_key (String d rest)); [exact Hskip|].
        apply Hskip. discriminate.
Qed.

(** X5. [handle_recaptcha] contacts the solving service at most once, and
    only after the hidden field and the challenge frame were both located
    and a site key was read from the frame, with the page URL and that key;
    it runs a script only after the service returned a token, and the script
    is the injection of exactly that token. *)
Theorem handle_recaptcha_actions (page : captcha_page)
    (solver : string -> string -> solver_outcome) :
  let trace := snd (handle_recaptcha page solver) in
  (trace = []
   /\ (cp_hidden_field page <> Located \/ cp_iframe page <> Located
       \/ search_site_key (cp_iframe_src page) = None))
  \/ exists key,
       cp_hidden_field page = Located /\ cp_iframe page = Located
       /\ search_site_key (cp_iframe_src page) = Some key
       /\ ((trace = [AskSolver (cp_url page) key]
            /\ forall token, solver (cp_url page) key <> Solved token)
           \/ exists token,
                solver (cp_url page) key = Solved token
                /\ trace = [AskSolver (cp_url page) key;
                            RunScript (injection_script token)]).
Proof.
  unfold handle_recaptcha.
  destruct (cp_hidden_field page) eqn:Eh;
    [|left; split; [reflexivity | left; discriminate] ..].
  destruct (cp_iframe page) eqn:Ei;
    [|left; split; [reflexivity | right; left; discriminate] ..].
  destruct (search_site_key (cp_iframe_src page)) as [key|] eqn:Ek;
    [|left; split; [reflexivity | now right; right]].
  right. exists key. repeat split.
  destruct (solver (cp_url page) key) as [token|code msg|msg] eqn:Es.
  - right. exists token. split; [reflexivity|].
    now destruct (cp_execute_script page (injection_script token)).
  - left. split; [reflexivity | discriminate].
  - left. split; [reflexivity | discriminate].
Qed.

(** X6. [handle_recaptcha] reports success exactly in these cases: the
    hidden response field is not found in time; the field is found and the
    challenge frame is not found in time; or field and frame are found, a
    site key is read, the service returns a token, and the injection script
    either completes or times out (a script timeout is answered like a
    missing frame). *)
Theorem handle_recaptcha_success_iff (page : captcha_page)
    (solver : string -> string -> solver_outcome) :
  fst (fst (handle_recaptcha page solver)) = true
  <-> cp_hidden_field page = WaitTimeout
      \/ (cp_hidden_field page = Located /\ cp_iframe page = WaitTimeout)
      \/ (cp_hidden_field page = Located /\ cp_iframe page = Located
          /\ exists key token,
               search_site_key (cp_iframe_src page) = Some key
               /\ solver (cp_url page) key = Solved token
               /\ (cp_execute_script page (injection_script token) = ScriptDone
                   \/ cp_execute_script page (injection_script token)
                      = ScriptTimeout)).
Proof.
  unfold handle_recaptcha.
  destruct (cp_hidden_field page) eqn:Eh.
  2: { split; [auto | reflexivity]. }
  2: { split; [discriminate|]. intros [H|[[H _]|[H _]]]; discriminate. }
  destruct (cp_iframe page) eqn:Ei.
  2: { split; [auto | reflexivity]. }
  2: { split; [discriminate|].
       intros [H|[[_ H]|(_ & H & _)]]; discriminate. }
  destruct (search_site_key (cp_iframe_src page)) as [key|] eqn:Ek.
  2: { split; [discriminate|].
       intros [H|[[_ H]|(_ & _ & k & t & H & _)]]; discriminate. }
  destruct (solver (cp_url page) key) as [token|code msg|msg] eqn:Es.
  2, 3: (split; [discriminate|];
         intros [H|[[_ H]|(_ & _ & k & t & Hk & Hs & _)]]; try discriminate;
         congruence).
  destruct (cp_execute_script page (injection_script token)) eqn:Ex; simpl.
  - split; [|reflexivity]. intros _. right. right. repeat split.
    exists key, token. auto.
  - split; [|reflexivity]. intros _. right. right. repeat split.
    exists key, token. auto.
  - split; [discriminate|].
    intros [H|[[_ H]|(_ & _ & k & t & Hk & Hs & Hx)]]; try discriminate.
    assert (k = key) by congruence. subst k.
    assert (t = token) by congruence. subst t.
    destruct Hx; congruence.
Qed.

(** ** Scrolling *)

Lemma scroll_from_ends (amounts : nat -> nat) (total : nat) :
  (forall i, 100 <= amounts i <= 300) ->
  forall fuel i pos,
    total - pos <= fuel ->
    exists l,
      scroll_from amounts fuel i pos total = Some l
      /\ 100 * List.length l < (total - pos) + 100
      /\ total - pos <= 300 * List.length l
      /\ (pos < total -> total <= last l 0 < total + 300)
      /\ (forall p, In p l -> pos < p).
Proof.
  intros Hrange. induction fuel as [|fuel IH]; intros i pos Hfuel;
    cbn [scroll_from].
  - destruct (Nat.ltb pos total) eqn:E.
    + apply Nat.ltb_lt in E. lia.
    + apply Nat.ltb_ge in E. exists []. simpl. repeat split; try lia; try (intros p []).
  - destruct (Nat.ltb pos total) eqn:E.
    + apply Nat.ltb_lt in E. specialize (Hrange i).
      destruct (IH (S i) (pos + amounts i)) as (l & Hl & Hlo & Hhi & Hlast & Hin);
        [lia|].
      rewrite Hl. exists ((pos + amounts i) :: l). split; [reflexivity|].
      cbn [List.length]. split; [lia|]. split; [lia|]. split.
      * intros _. destruct l as [|q l].
        -- simpl in *. lia.
        -- change (last ((pos + amounts i) :: q :: l) 0) with (last (q :: l) 0).
           apply Hlast. cbn [List.length] in Hlo. lia.
      * intros p [<-|Hp]; [lia|]. specialize (Hin p Hp). lia.
    + apply Nat.ltb_ge in E. exists []. simpl. repeat split; try lia; try (intros p []).
Qed.

(** X7. With every drawn amount between 100 and 300, [random_scroll]
    leaves its loop: it scrolls to strictly positive positions, does not
    scroll at all on a page of height 0, ends at a position at or past the
    page height and less than 300 past it, and takes at least a three
    hundredth and fewer than a hundredth plus one of the height in steps. *)
Theorem random_scroll_terminates (amounts : nat -> nat) (total_height : nat) :
  (forall i, 100 <= amounts i <= 300) ->
  exists positions,
    random_scroll amounts total_height total_height = Some positions
    /\ (total_height = 0 -> positions = [])
    /\ (0 < total_height ->
        total_height <= last positions 0 < total_height + 300)
    /\ total_height <= 300 * List.length positions
    /\ 100 * List.length positions < total_height + 100
    /\ (forall p, In p positions -> 0 < p).
Proof.
  intros Hrange. unfold random_scroll.
  destruct (scroll_from_ends amounts total_height Hrange total_height 0 0)
    as (l & Hl & Hlo & Hhi & Hlast & Hin); [lia|].
  exists l. split; [exact Hl|]. split.
  - intros ->. destruct l; [reflexivity | simpl in Hlo; lia].
  - split; [exact Hlast|]. split; [lia|]. split; [lia | exact Hin].
Qed.

Lemma random_scroll_terminates_witness :
  exists positions,
    random_scroll (fun _ => 200) 450 450 = Some positions
    /\ (450 = 0 -> positions = [])
    /\ (0 < 450 -> 450 <= last positions 0 < 450 + 300)
    /\ 450 <= 300 * List.length positions
    /\ 100 * List.length positions < 450 + 100
    /\ (forall p, In p positions -> 0 < p).
Proof.
  apply (random_scroll_terminates (fun _ => 200) 450). intros _. lia.
Defined.

(** ** Appending to the store *)




Lemma dict_set_absent {V : Type} (k : string) (v : V) (d : list (string * V)) :
  dict_get String.eqb k d = None -> dict_set String.eqb k v d = d ++ [(k, v)].
Proof.
  induction d as [|[k' v'] d IH]; simpl; [reflexivity|].
  destruct (String.eqb k k'); [discriminate|]. intros H. now rewrite IH.
Qed.

Lemma dict_set_last {V : Type} (k : string) (v w : V) (d : list (string * V)) :
  dict_get String.eqb k d = None ->
  dict_set String.eqb k w (d ++ [(k, v)]) = d ++ [(k, w)].
Proof.
  induction d as [|[k' v'] d IH]; simpl.
  - now rewrite String.eqb_refl.
  - destruct (String.eqb k k'); [discriminate|]. intros H. now rewrite IH.
Qed.

Lemma load_row_cases (ms : mappings) (row : csv_row) :
  load_row ms row
  = match dict_get String.eqb (c_company_name row) ms with
    | Some records =>
        dict_set String.eqb (c_company_name row)
          (records ++ [field_info_of_row row]) ms
    | None => ms ++ [(c_company_name row, [field_info_of_row row])]
    end.
Proof.
  unfold load_row, dict_mem.
  destruct (dict_get String.eqb (c_company_name row) ms) as [records|] eqn:G.
  - now rewrite G.
  - rewrite sget_set, String.eqb_refl. rewrite (dict_set_absent _ _ _ G).
    now apply dict_set_last.
Qed.

Lemma total_records_set (k : string) (v old : list mapping_record) (ms : mappings) :
  dict_get String.eqb k ms = Some old ->
  total_records (dict_set String.eqb k v ms) + List.length old
  = total_records ms + List.length v.
Proof.
  unfold total_records. induction ms as [|[k' v'] ms IH]; simpl; [discriminate|].
  destruct (String.eqb k k'); simpl.
  - intros [= ->]. lia.
  - intros H. specialize (IH H). lia.
Qed.

(** X9. [load_input_mappings] neither drops nor merges rows: the lists it
    returns hold together as many records as the file has data rows, and no
    company is entered with an empty list. *)
Theorem load_keeps_every_row (rows : list csv_row) :
  total_records (load_input_mappings (Some rows)) = List.length rows
  /\ forall company records,
       In (company, records) (load_input_mappings (Some rows)) -> records <> [].
Proof.
  unfold load_input_mappings.
  assert (H : forall ms,
             (forall c l, In (c, l) ms -> l <> []) ->
             total_records (fold_left load_row rows ms)
             = total_records ms + List.length rows
             /\ forall c l, In (c, l) (fold_left load_row rows ms) -> l <> []).
  { induction rows as [|row rows IH]; intros ms Hne; simpl.
    - split; [lia | exact Hne].
    - destruct (IH (load_row ms row)) as [Ht Hn].
      + rewrite load_row_cases.
        destruct (dict_get String.eqb (c_company_name row) ms) as [records|].
        * intros c l Hin. apply dict_set_In_value in Hin.
          destruct Hin as [->|Hin]; [now destruct records | eauto].
        * intros c l Hin. apply in_app_or in Hin.
          destruct Hin as [Hin|[[= <- <-]|[]]]; [eauto | discriminate].
      + split; [|exact Hn]. rewrite Ht, load_row_cases.
        destruct (dict_get String.eqb (c_company_name row) ms) as [records|] eqn:G.
        * pose proof (total_records_set _ (records ++ [field_info_of_row row]) _ _ G)
            as Hs. rewrite length_app in Hs. simpl in Hs. lia.
        * unfold total_records. rewrite map_app, list_sum_app. simpl. lia. }
  destruct (H []) as [Ht Hn]; [intros c l []|].
  split; [exact Ht | exact Hn].
Qed.

(** ** More on the synthesizer *)

(** X10. One call of [generate_form_input] sends at most one generative
    request: exactly one when the company has no cached mapping and the
    catalog, after [g-recaptcha-response] is removed, has a field other than
    [inquiry_content]; none otherwise. The request carries those fields and
    the supplied inquiry text. *)
Theorem requests_issued
    (ai : ai_request -> ai_outcome)
    (json_loads : string -> option (list (string * jvalue)))
    (form_data : catalog) (existing : mappings) (company : string)
    (content : option string) :
  r_requests (generate_form_input ai json_loads form_data existing company content)
  = match dict_get String.eqb company existing,
          ai_input_needed (strip_recaptcha form_data) with
    | None, _ :: _ => [request_of form_data content]
    | _, _ => []
    end.
Proof.
  destruct (dict_get String.eqb company existing) as [records|] eqn:Ex.
  - now rewrite (generate_form_input_on_hit _ _ _ _ _ _ _ Ex).
  - destruct (no_cache_cases ai json_loads form_data existing company content Ex)
      as (_ & _ & [(Hn & Hr & _) | (Hn & Hr & _)]); rewrite Hr.
    + now rewrite Hn.
    + now destruct (ai_input_needed (strip_recaptcha form_data)).
Qed.

(** X11. Whatever path is taken (cache hit, generation, failure), the
    catalog object of the caller is left without its [g-recaptcha-response]
    entry and with every other entry as it was. *)
Theorem catalog_after_call
    (ai : ai_request -> ai_outcome)
    (json_loads : string -> option (list (string * jvalue)))
    (form_data : catalog) (existing : mappings) (company : string)
    (content : option string) (k : pykey) :
  dict_get pykey_eqb k
    (r_form_data (generate_form_input ai json_loads form_data existing company content))
  = if pykey_eqb k (Some "g-recaptcha-response") then None
    else dict_get pykey_eqb k form_data.
Proof.
  assert (Hfd : r_form_data
                  (generate_form_input ai json_loads form_data existing company content)
                = strip_recaptcha form_data).
  { destruct (dict_get String.eqb company existing) as [records|] eqn:Ex.
    - now rewrite (generate_form_input_on_hit _ _ _ _ _ _ _ Ex).
    - now destruct (no_cache_cases ai json_loads form_data existing company content Ex)
        as (H & _). }
  rewrite Hfd. destruct (pykey_eqb k (Some "g-recaptcha-response")) eqn:E.
  - apply pykey_eqb_spec in E. subst k. apply strip_recaptcha_gone.
  - apply strip_recaptcha_other. intros ->. discriminate.
Qed.

(** X12. The status is one of the four status texts; the returned input set
    is [None] exactly when the status is [input_generation_failed]; and the
    list of new records is [None] exactly when the status is
    [input_generation_failed] or [all_fill_from_csv]. *)
Theorem status_and_results
    (ai : ai_request -> ai_outcome)
    (json_loads : string -> option (list (string * jvalue)))
    (form_data : catalog) (existing : mappings) (company : string)
    (content : option string) :
  let res := generate_form_input ai json_loads form_data existing company content in
  In (r_status res)
     ["input_from_existing_mapping"; "all_fill_from_csv"; "all_input_from_ai";
      "input_generation_failed"]
  /\ (r_generated_input res = None <-> r_status res = "input_generation_failed")
  /\ (r_generate_item res = None
      <-> r_status res = "input_generation_failed"
          \/ r_status res = "all_fill_from_csv").
Proof.
  intros res. subst res.
  destruct (dict_get String.eqb company existing) as [records|] eqn:Ex.
  - rewrite (generate_form_input_on_hit _ _ _ _ _ _ _ Ex). simpl.
    split; [auto|]. split; split; try discriminate. intros [H|H]; discriminate.
  - destruct (no_cache_cases ai json_loads form_data existing company content Ex)
      as (_ & _ & [(_ & _ & Hg & Hs & Hi)
                  | (_ & _ & [(Hg & Hs & Hi)
                             | (a & j & p & gi & items & _ & _ & _ & _ & Hg & Hi & Hs)])]);
      rewrite Hg, Hs, Hi; simpl.
    + split; [auto|]. split; split; try discriminate; auto.
    + split; [auto 6|]. split; split; auto.
    + split; [auto 6|]. split; split; try discriminate. intros [H|H]; discriminate.
Qed.

Lemma NoDup_snoc {A : Type} (l : list A) (x : A) :
  NoDup l -> ~ In x l -> NoDup (l ++ [x]).
Proof.
  induction 1 as [|a l Ha Hl IH]; simpl; intros Hx.
  - constructor; [intros [] | constructor].
  - constructor.
    + intros Hin. apply in_app_or in Hin. destruct Hin as [Hin|[->|[]]]; auto.
    + apply IH. auto.
Qed.

Lemma item_step_records (fd : catalog) (init : input_dict)
    (st st1 : input_dict * list gen_item) (kv : string * jvalue) :
  records_match fd init st -> item_step fd st kv = Ok st1 ->
  records_match fd init st1.
Proof.
  destruct st as [gi items], kv as [name value].
  intros (Hit & Hnd & Hkeys & Hinit). unfold item_step, dict_mem.
  destruct (dict_get String.eqb name gi) eqn:Eg.
  - intros [= <-]. exact (conj Hit (conj Hnd (conj Hkeys Hinit))).
  - destruct (dict_get pykey_eqb (Some name) fd) as [fi|] eqn:Ef; [|discriminate].
    destruct (join_options _) as [option|]; simpl; [|discriminate].
    intros [= <-]. simpl in *.
    assert (Hfresh : forall it, In it items -> g_name it <> name).
    { intros it Hin Heq. destruct (Hit it Hin) as (H & _). congruence. }
    unfold records_match. cbn [fst snd]. split; [|split; [|split]].
    + intros it H. apply in_app_or in H. destruct H as [H|[<-|[]]]; simpl.
      * destruct (Hit it H) as (H1 & H2 & H3). split; [|split]; auto.
        rewrite sget_set.
        destruct (String.eqb (g_name it) name) eqn:E;
          [apply String.eqb_eq in E; now apply Hfresh in E | exact H1].
      * split; [now rewrite sget_set, String.eqb_refl|]. split.
        -- destruct (dict_get String.eqb name init) eqn:Ei; [|reflexivity].
           apply Hinit in Ei. congruence.
        -- exists fi. now repeat split.
    + rewrite map_app. simpl. apply NoDup_snoc; [exact Hnd|].
      intros Hin. apply in_map_iff in Hin. destruct Hin as (it & Hn & Hin).
      now apply (Hfresh it).
    + intros k v. rewrite sget_set. destruct (String.eqb k name) eqn:E.
      * apply String.eqb_eq in E. subst k. intros [= <-]. right.
        eexists. split; [apply in_or_app; right; now left|]. now split.
      * intros Hk. destruct (Hkeys k v Hk) as [H|(it & Hin & Hn & Hv)]; auto.
        right. exists it. split; [apply in_or_app; now left | now split].
    + intros k v Hk. rewrite sget_set. destruct (String.eqb k name) eqn:E.
      * apply String.eqb_eq in E. subst k. apply Hinit in Hk. congruence.
      * now apply Hinit.
Qed.

Lemma item_loop_records (fd : catalog) (init : input_dict)
    (parsed : list (string * jvalue)) (st st1 : input_dict * list gen_item) :
  records_match fd init st -> item_loop fd parsed st = Ok st1 ->
  records_match fd init st1.
Proof.
  revert st. induction parsed as [|kv parsed IH]; intros st Hst; simpl.
  - now intros [= <-].
  - destruct (item_step fd st kv) as [st'|] eqn:E; simpl; [|discriminate].
    apply IH. eapply item_step_records; eauto.
Qed.

(** X13. When a run without cached mapping returns new mapping records,
    they agree with the returned inputs: each record is for a different
    field of the catalog, carries that field's kind, required flag, maximum
    length and placeholder, and its value is the one bound to the field in
    the returned inputs; and every returned binding is either the supplied
    inquiry text or the value of one of the records. *)
Theorem new_records_match_inputs
    (ai : ai_request -> ai_outcome)
    (json_loads : string -> option (list (string * jvalue)))
    (form_data : catalog) (existing : mappings) (company : string)
    (content : option string) (items : list gen_item) :
  dict_get String.eqb company existing = None ->
  let res := generate_form_input ai json_loads form_data existing company content in
  r_generate_item res = Some items ->
  exists g,
    r_generated_input res = Some g
    /\ NoDup (map g_name items)
    /\ (forall it, In it items ->
          dict_get String.eqb (g_name it) g = Some (g_value it)
          /\ exists fi,
               dict_get pykey_eqb (Some (g_name it)) (r_form_data res) = Some fi
               /\ g_type it = f_type fi /\ g_required it = f_required fi
               /\ g_max_length it = f_max_length fi
               /\ g_placeholder it = f_placeholder fi)
    /\ (forall k v, dict_get String.eqb k g = Some v ->
          (k = "inquiry_content" /\ exists s, content = Some s /\ v = JStr s)
          \/ exists it, In it items /\ g_name it = k /\ g_value it = v).
Proof.
  intros Hmiss res Hitems.
  destruct (no_cache_cases ai json_loads form_data existing company content Hmiss)
    as (Hfd & _ & Hcases). fold res in Hfd, Hcases.
  destruct Hcases as [(_ & _ & _ & _ & Hi) | (_ & _ & [(_ & _ & Hi) | Hok])];
    try congruence.
  destruct Hok as (a & j & p & gi & its & _ & _ & _ & Hl & Hg & Hi & _).
  rewrite Hi in Hitems. injection Hitems as <-.
  assert (H0 : records_match (strip_recaptcha form_data) (supplied_input content)
                 (supplied_input content, [])).
  { repeat split; simpl; try contradiction; auto. constructor. }
  destruct (item_loop_records _ _ _ _ _ H0 Hl) as (Hit & Hnd & Hkeys & _).
  simpl in *. exists gi. split; [exact Hg|]. split; [exact Hnd|]. split.
  - intros it Hin. destruct (Hit it Hin) as (H1 & _ & H3). rewrite Hfd. auto.
  - intros k v Hk. destruct (Hkeys k v Hk) as [H|H]; [left | now right].
    unfold supplied_input in H. destruct (truthy_str content) eqn:Et; [|discriminate].
    simpl in H. destruct (String.eqb k "inquiry_content") eqn:E; [|discriminate].
    apply String.eqb_eq in E. injection H as <-. split; [exact E|].
    destruct content as [s|]; [|discriminate]. now exists s.
Qed.

Lemma new_records_match_inputs_witness :
  exists g,
    r_generated_input
      (generate_form_input (fun _ => AiAnswer contact_answer) json_loads_flat
         contact_catalog [] "Acme" (Some "Please contact us.")) = Some g
    /\ dict_get String.eqb "email" g = Some (JStr "taro@example.com").
Proof.
  destruct (new_records_match_inputs (fun _ => AiAnswer contact_answer)
              json_loads_flat contact_catalog [] "Acme" (Some "Please contact us.")
              [ {| g_type := "text"; g_name := "full_name"; g_option := EmptyString;
                   g_value := JStr "Taro Yamada"; g_required := true;
                   g_max_length := None; g_placeholder := None |};
                {| g_type := "email"; g_name := "email"; g_option := EmptyString;
                   g_value := JStr "taro@example.com"; g_required := true;
                   g_max_length := None; g_placeholder := None |};
                {| g_type := "textarea"; g_name := "message"; g_option := EmptyString;
                   g_value := JStr "Hello"; g_required := true;
                   g_max_length := None; g_placeholder := None |} ]
              eq_refl eq_refl) as (g & Hg & _ & Hit & _).
  exists g. split; [exact Hg|].
  refine (proj1 (Hit _ (or_intror (or_introl eq_refl)))).
Defined.

Lemma all_strings_none (xs : list (option string)) :
  In None xs -> all_strings xs = None.
Proof.
  induction xs as [|[s|] xs IH]; simpl; [contradiction | | reflexivity].
  intros [H|H]; [discriminate|]. now rewrite IH.
Qed.

Lemma join_options_none (xs : list (option string)) :
  In None xs -> join_options xs = Raise TypeError.
Proof.
  intros H. unfold join_options. rewrite (all_strings_none _ H).
  destruct xs; [contradiction | reflexivity].
Qed.

Lemma item_loop_valueless_option (fd : catalog) (name : string) (value : jvalue)
    (fi : field_info) (parsed : list (string * jvalue))
    (st : input_dict * list gen_item) :
  dict_get pykey_eqb (Some name) fd = Some fi ->
  In None (f_options fi) -> value <> JNull ->
  dict_get String.eqb name parsed = Some value ->
  dict_get String.eqb name (fst st) = None ->
  exists e, item_loop fd parsed st = Raise e.
Proof.
  intros Hfd Hopt Hval. revert st.
  induction parsed as [|[k v] parsed IH]; intros st Hp Hst; simpl in Hp;
    [discriminate|]. cbn [item_loop].
  destruct (item_step fd st (k, v)) as [st'|e] eqn:E; simpl; [|eauto].
  destruct (String.eqb name k) eqn:Ek.
  - exfalso. apply String.eqb_eq in Ek. subst k. injection Hp as ->.
    destruct st as [gi items]. simpl in Hst.
    unfold item_step, dict_mem in E. rewrite Hst, Hfd in E.
    rewrite join_options_none in E; [discriminate|].
    apply filter_In. split; [exact Hopt|]. now destruct value.
  - apply IH; [exact Hp|].
    destruct (dict_get String.eqb name (fst st')) as [w|] eqn:G; [|reflexivity].
    destruct (item_step_keys _ _ _ _ _ _ E G) as [H | (H & _)].
    + congruence.
    + simpl in H. subst k. now rewrite String.eqb_refl in Ek.
Qed.

(** X14. A field one of whose options is [None] (a radio button without a
    [value] attribute) cannot be synthesized: when the decoded answer gives
    that field any value other than [null], building the list of unselected
    options raises, and the run ends with no result set, the status
    [input_generation_failed] and no new records. *)
Theorem valueless_option_fails_synthesis
    (ai : ai_request -> ai_outcome)
    (json_loads : string -> option (list (string * jvalue)))
    (form_data : catalog) (existing : mappings) (company : string)
    (content : option string) (answer json_str name : string)
    (parsed : list (string * jvalue)) (value : jvalue) (fi : field_info) :
  dict_get String.eqb company existing = None ->
  ai (request_of form_data content) = AiAnswer answer ->
  re_search_braces answer = Some json_str ->
  json_loads json_str = Some parsed ->
  dict_get String.eqb name parsed = Some value ->
  dict_get pykey_eqb (Some name) (strip_recaptcha form_data) = Some fi ->
  In None (f_options fi) ->
  value <> JNull ->
  name <> "inquiry_content" ->
  let res := generate_form_input ai json_loads form_data existing company content in
  r_generated_input res = None
  /\ r_status res = "input_generation_failed"
  /\ r_generate_item res = None.
Proof.
  intros Hmiss Ha Hm Hj Hp Hfd Hopt Hval Hname res.
  destruct (no_cache_cases ai json_loads form_data existing company content Hmiss)
    as (_ & _ & Hcases). fold res in Hcases.
  assert (Hraise : exists e,
             item_loop (strip_recaptcha form_data) parsed (supplied_input content, [])
             = Raise e).
  { apply (item_loop_valueless_option _ name value fi); auto.
    unfold supplied_input. destruct (truthy_str content); [|reflexivity].
    simpl. apply String.eqb_neq in Hname. now rewrite Hname. }
  destruct Hraise as [e He].
  destruct Hcases as [(Hn & _) | (_ & _ & [Hfail | Hok])].
  - exfalso. pose proof (ai_input_needed_get (strip_recaptcha form_data) (Some name))
      as Hg. rewrite Hn, Hfd in Hg. simpl in Hg.
    apply String.eqb_neq in Hname. rewrite Hname in Hg. discriminate.
  - exact Hfail.
  - destruct Hok as (a & js & p & gi & items & Ha' & Hm' & Hj' & Hl & _).
    rewrite Ha in Ha'. injection Ha' as <-. rewrite Hm in Hm'. injection Hm' as <-.
    rewrite Hj in Hj'. injection Hj' as <-. congruence.
Qed.

Lemma valueless_option_fails_synthesis_witness :
  let res := generate_form_input
               (fun _ => AiAnswer (json_object [("plan", "basic")]))
               json_loads_flat plan_catalog [] "Acme" None in
  r_generated_input res = None
  /\ r_status res = "input_generation_failed"
  /\ r_generate_item res = None.
Proof.
  apply (valueless_option_fails_synthesis
           (fun _ => AiAnswer (json_object [("plan", "basic")]))
           json_loads_flat plan_catalog [] "Acme" None
           (json_object [("plan", "basic")]) (json_object [("plan", "basic")])
           "plan" [("plan", JStr "basic")] (JStr "basic")
           {| f_type := "radio"; f_required := false; f_max_length := None;
              f_placeholder := None; f_options := [Some "basic"; None];
              f_value := None; f_purpose := None |});
    try reflexivity; try discriminate.
  simpl. auto.
Defined.

(** ** The brace search *)

Lemma from_first_lbrace_skip (pre s : string) :
  has_char "{" pre = false ->
  from_first_lbrace (pre ++ String "{" s) = Some (String "{" s).
Proof.
  induction pre as [|c pre IH]; simpl; [reflexivity|].
  destruct (Ascii.eqb c "{"); simpl; [discriminate | exact IH].
Qed.

Lemma upto_last_rbrace_none (s : string) :
  has_char "}" s = false -> upto_last_rbrace s = None.
Proof.
  induction s as [|c s IH]; simpl; [reflexivity|].
  destruct (Ascii.eqb c "}"); simpl; [discriminate|].
  intros H. now rewrite IH.
Qed.

Lemma upto_last_rbrace_last (s post : string) :
  has_char "}" post = false ->
  upto_last_rbrace (s ++ String "}" post) = Some (s ++ "}")%string.
Proof.
  intros Hp. induction s as [|c s IH]; simpl.
  - now rewrite (upto_last_rbrace_none _ Hp).
  - now rewrite IH.
Qed.

(** X15. The text taken from an answer for decoding runs from the first
    opening brace of the answer to its last closing brace, whatever lies
    between them: for an answer [pre { mid } post] with no opening brace in
    [pre] and no closing brace in [post], it is [{ mid }]. *)
Theorem re_search_braces_outermost (pre mid post : string) :
  has_char "{" pre = false ->
  has_char "}" post = false ->
  re_search_braces (pre ++ "{" ++ mid ++ "}" ++ post)
  = Some ("{" ++ mid ++ "}")%string.
Proof.
  intros Hpre Hpost. unfold re_search_braces.
  change (pre ++ "{" ++ mid ++ "}" ++ post)%string
    with (pre ++ String "{" (mid ++ String "}" post))%string.
  rewrite (from_first_lbrace_skip _ _ Hpre).
  change (String "{" (mid ++ String "}" post))
    with (String "{" mid ++ String "}" post)%string.
  now rewrite (upto_last_rbrace_last _ _ Hpost).
Qed.

Lemma re_search_braces_outermost_witness :
  re_search_braces
    ("Sure: " ++ "{" ++ json_object [("a", "b")] ++ " and " ++ json_object [("c", "d")]
     ++ "}" ++ " Done.")
  = Some ("{" ++ json_object [("a", "b")] ++ " and " ++ json_object [("c", "d")]
          ++ "}")%string.
Proof.
  apply (re_search_braces_outermost "Sure: "
           (json_object [("a", "b")] ++ " and " ++ json_object [("c", "d")])
           " Done."); reflexivity.
Defined.

(** ** More on catalog extraction *)

Lemma find_inputs_type (types : list string) (soup : list element) (e : element) :
  In e (find_inputs types soup) ->
  exists t, e_type e = Some t /\ In t types.
Proof.
  unfold find_inputs. intros H. apply filter_In in H. destruct H as [_ H].
  apply andb_true_iff in H. destruct H as [_ H].
  apply existsb_exists in H. destruct H as (t & Hin & Ht).
  unfold opt_eqb in Ht. destruct (e_type e) as [x|]; [|discriminate].
  apply String.eqb_eq in Ht. subst x. eauto.
Qed.

Lemma add_option_shaped (v : option string) (g : field_info) :
  f_type g = "radio" /\ well_shaped g -> 
  f_type (add_option v g) = "radio" /\ well_shaped (add_option v g).
Proof.
  intros (Ht & Hk & _ & Hm & Hv & Hc & _). unfold well_shaped. simpl.
  rewrite Ht in *. repeat split; auto; try discriminate.
Qed.

(** X16. Every descriptor of an extracted catalog has one of the eight
    kinds; only [select] and [radio] descriptors carry options, and the
    options of a [select] are non-empty labels; only text-like descriptors
    carry a maximum length or a placeholder; only [checkbox] descriptors
    carry a value or a purpose; and a [captcha] descriptor is required. *)
Theorem extracted_descriptors_are_well_shaped
    (form : option (list element)) (k : pykey) (fi : field_info) :
  In (k, fi) (extract_form_data form) -> well_shaped fi.
Proof.
  revert k fi. change (values_sat well_shaped (extract_form_data form)).
  assert (Hplain : forall t b, In t kinds -> (t = "captcha" -> b = true) ->
                               well_shaped (plain_info t b)).
  { intros t b Ht Hc. unfold well_shaped. simpl.
    repeat split; auto; try (intros H; exfalso; destruct H as [H|H]; now apply H);
      try (intros H; now exfalso); try contradiction. }
  destruct form as [soup|]; [|apply values_sat_nil]. unfold extract_form_data.
  apply fold_left_invariant.
  { intros acc x _ H. unfold textarea_step.
    destruct (_ && _); [|destruct (truthy_str _)]; auto;
      apply values_sat_set; auto; apply Hplain; simpl; auto 10; discriminate. }
  apply fold_left_invariant.
  { intros acc x _ H. unfold checkbox_step.
    destruct (_ && _); apply values_sat_set; auto; unfold well_shaped; simpl;
      repeat split; auto 10; try discriminate; try contradiction;
      try (intros [Hx|Hx]; now exfalso). }
  unfold dict_update.
  assert (Hradio : values_sat (fun g => f_type g = "radio" /\ well_shaped g)
                     (fold_left radio_step (find_inputs ["radio"] soup) [])).
  { apply fold_left_invariant; [|apply values_sat_nil].
    intros acc x _ H. unfold radio_step.
    destruct (truthy_str (e_name x)); [|exact H].
    set (g1 := if dict_mem pykey_eqb (e_name x) acc then acc else _).
    assert (H1 : values_sat (fun g => f_type g = "radio" /\ well_shaped g) g1).
    { unfold g1. destruct (dict_mem pykey_eqb (e_name x) acc); [exact H|].
      apply values_sat_set; auto. split; [reflexivity|].
      apply Hplain; simpl; auto 10. discriminate. }
    destruct (dict_get pykey_eqb (e_name x) g1) as [g|] eqn:G; [|exact H1].
    apply values_sat_set; [|exact H1]. apply add_option_shaped.
    apply dict_get_In in G; [|apply pykey_eqb_spec]. now apply H1 in G. }
  apply fold_left_invariant.
  { intros acc [k fi] Hin H. apply values_sat_set; [|exact H].
    simpl. now apply (Hradio k fi Hin). }
  apply fold_left_invariant.
  { intros acc x _ H. unfold select_step.
    destruct (truthy_str _); auto. apply values_sat_set; auto.
    unfold well_shaped. simpl.
    repeat split; auto 10; try (intros Hx; discriminate Hx);
      try (intros [Hx|Hx]; now exfalso).
    intros _ o Ho. apply in_map_iff in Ho. destruct Ho as (s & <- & Hs).
    apply filter_In in Hs. destruct Hs as [_ Hs].
    exists s. split; [reflexivity|]. intros ->. discriminate. }
  apply fold_left_invariant; [|apply values_sat_nil].
  intros acc x Hx H. unfold text_step.
  destruct (truthy_str _); auto. apply values_sat_set; auto.
  destruct (find_inputs_type _ _ _ Hx) as (t & Ht & Hin). rewrite Ht.
  unfold well_shaped. simpl.
  assert (Hk : In t kinds) by (simpl in Hin; simpl; intuition).
  repeat split; auto; try contradiction; try (intros [Hy|Hy]; now exfalso).
  intros ->. simpl in Hin. intuition discriminate.
Qed.

Lemma extracted_descriptors_are_well_shaped_witness :
  well_shaped (plain_info "captcha" true).
Proof.
  apply (extracted_descriptors_are_well_shaped (Some recaptcha_form)
           (Some "g-recaptcha-response") (plain_info "captcha" true)).
  simpl. auto.
Defined.

Lemma named_false_of_empty (n : string) (e : element) :
  n <> EmptyString -> truthy_str (e_name e) = false -> named n e = false.
Proof.
  intros Hn. unfold named, opt_eqb. destruct (e_name e) as [[|c m]|]; simpl;
    try discriminate; [|reflexivity].
  intros _. destruct n; [contradiction | reflexivity].
Qed.

Lemma radio_step_get (n : string) (acc : catalog) (e : element) :
  n <> EmptyString ->
  dict_get pykey_eqb (Some n) (radio_step acc e)
  = if named n e
    then Some (add_option (e_value e)
                 (match dict_get pykey_eqb (Some n) acc with
                  | Some g => g
                  | None => plain_info "radio" (aria_required e)
                  end))
    else dict_get pykey_eqb (Some n) acc.
Proof.
  intros Hn. unfold radio_step.
  destruct (truthy_str (e_name e)) eqn:Et;
    [|now rewrite (named_false_of_empty _ _ Hn Et)].
  unfold named, opt_eqb, dict_mem. destruct (e_name e) as [m|]; [|discriminate].
  destruct (dict_get pykey_eqb (Some m) acc) as [g|] eqn:G.
  - rewrite G, kget_set. cbn [pykey_eqb]. rewrite (String.eqb_sym m n).
    destruct (String.eqb n m) eqn:E; [|reflexivity].
    apply String.eqb_eq in E. subst m. now rewrite G.
  - rewrite kget_set, pykey_eqb_refl, !kget_set. cbn [pykey_eqb].
    rewrite (String.eqb_sym m n).
    destruct (String.eqb n m) eqn:E; [|reflexivity].
    apply String.eqb_eq in E. subst m. now rewrite G.
Qed.

Lemma fold_add_option (l : list element) (g : field_info) :
  fold_left (fun g e => add_option (e_value e) g) l g
  = {| f_type := f_type g; f_required := f_required g;
       f_max_length := f_max_length g; f_placeholder := f_placeholder g;
       f_options := f_options g ++ map e_value l; f_value := f_value g;
       f_purpose := f_purpose g |}.
Proof.
  revert g. induction l as [|e l IH]; intros g; simpl.
  - rewrite app_nil_r. now destruct g.
  - rewrite IH. simpl. now rewrite <- app_assoc.
Qed.

Lemma radio_fold_get (n : string) (l : list element) (acc : catalog) :
  n <> EmptyString ->
  dict_get pykey_eqb (Some n) (fold_left radio_step l acc)
  = match filter (named n) l with
    | [] => dict_get pykey_eqb (Some n) acc
    | first :: rest =>
        Some (fold_left (fun g e => add_option (e_value e) g) (first :: rest)
                (match dict_get pykey_eqb (Some n) acc with
                 | Some g => g
                 | None => plain_info "radio" (aria_required first)
                 end))
    end.
Proof.
  intros Hn. revert acc. induction l as [|e l IH]; intros acc; [reflexivity|].
  cbn [fold_left filter]. rewrite IH, (radio_step_get n acc e Hn).
  destruct (named n e); [|reflexivity].
  now destruct (filter (named n) l).
Qed.

Lemma dict_set_keys (k a : pykey) (v : field_info) (d : catalog) :
  In a (map fst (dict_set pykey_eqb k v d)) -> a = k \/ In a (map fst d).
Proof.
  intros H. apply in_map_iff in H. destruct H as ([a' b] & <- & Hin).
  apply dict_set_In_key in Hin. destruct Hin as [->|[b0 Hin]]; [now left|].
  right. apply in_map_iff. now exists (a', b0).
Qed.

Lemma dict_set_keys_nodup (k : pykey) (v : field_info) (d : catalog) :
  NoDup (map fst d) -> NoDup (map fst (dict_set pykey_eqb k v d)).
Proof.
  induction d as [|[k' v'] d IH]; simpl; intros Hnd.
  - constructor; [intros [] | constructor].
  - inversion Hnd as [|? ? Hnot Hrest]; subst.
    destruct (pykey_eqb k k') eqn:E; simpl.
    + now constructor.
    + constructor; [|auto]. intros Hin. apply dict_set_keys in Hin.
      destruct Hin as [->|Hin]; [|contradiction].
      now rewrite pykey_eqb_refl in E.
Qed.

Lemma dict_get_notin (k : pykey) (d : catalog) :
  ~ In k (map fst d) -> dict_get pykey_eqb k d = None.
Proof.
  induction d as [|[k' v'] d IH]; simpl; [reflexivity|]. intros H.
  destruct (pykey_eqb k k') eqn:E.
  - apply pykey_eqb_spec in E. subst. exfalso. apply H. now left.
  - apply IH. intros Hin. apply H. now right.
Qed.

Lemma dict_update_get (k : pykey) (other d : catalog) :
  NoDup (map fst other) ->
  dict_get pykey_eqb k (dict_update pykey_eqb d other)
  = match dict_get pykey_eqb k other with
    | Some v => Some v
    | None => dict_get pykey_eqb k d
    end.
Proof.
  unfold dict_update. revert d.
  induction other as [|[k1 v1] other IH]; intros d Hnd; simpl; [reflexivity|].
  inversion Hnd as [|? ? Hnot Hrest]; subst. rewrite (IH _ Hrest), kget_set.
  destruct (pykey_eqb k k1) eqn:E; [|reflexivity].
  apply pykey_eqb_spec in E. subst k1. now rewrite (dict_get_notin _ _ Hnot).
Qed.

Lemma radio_groups_nodup (l : list element) :
  NoDup (map fst (fold_left radio_step l [])).
Proof.
  apply (fold_left_invariant (fun d : catalog => NoDup (map fst d)));
    [|constructor].
  intros acc x _ H. unfold radio_step. destruct (truthy_str (e_name x)); [|exact H].
  set (g1 := if dict_mem pykey_eqb (e_name x) acc then acc else _).
  assert (H1 : NoDup (map fst g1)).
  { unfold g1. destruct (dict_mem pykey_eqb (e_name x) acc); [exact H|].
    now apply dict_set_keys_nodup. }
  destruct (dict_get pykey_eqb (e_name x) g1); [|exact H1].
  now apply dict_set_keys_nodup.
Qed.

Lemma checkbox_step_eq (fd : catalog) (e : element) :
  checkbox_step fd e = dict_set pykey_eqb (e_name e) (checkbox_info e) fd.
Proof.
  unfold checkbox_step, checkbox_info.
  destruct (e_name e) as [[|c m]|]; simpl; try reflexivity.
  now destruct (agreement_name (String c m)).
Qed.

Lemma checkbox_fold_other (k : pykey) (l : list element) (fd : catalog) :
  (forall e, In e l -> e_name e <> k) ->
  dict_get pykey_eqb k (fold_left checkbox_step l fd) = dict_get pykey_eqb k fd.
Proof.
  intros H.
  apply (fold_left_invariant
           (fun d => dict_get pykey_eqb k d = dict_get pykey_eqb k fd));
    [|reflexivity].
  intros acc x Hx Hacc. rewrite checkbox_step_eq, kget_set.
  destruct (pykey_eqb k (e_name x)) eqn:E; [|exact Hacc].
  apply pykey_eqb_spec in E. symmetry in E. now apply H in E.
Qed.

Lemma textarea_fold_other (k : pykey) (l : list element) (fd : catalog) :
  (forall e, In e l -> e_name e <> k) ->
  dict_get pykey_eqb k (fold_left textarea_step l fd) = dict_get pykey_eqb k fd.
Proof.
  intros H.
  apply (fold_left_invariant
           (fun d => dict_get pykey_eqb k d = dict_get pykey_eqb k fd));
    [|reflexivity].
  intros acc x Hx Hacc. unfold textarea_step.
  assert (Hk : pykey_eqb k (e_name x) = false).
  { destruct (pykey_eqb k (e_name x)) eqn:E; [|reflexivity].
    apply pykey_eqb_spec in E. symmetry in E. now apply H in E. }
  destruct (_ && _); [|destruct (truthy_str _)]; try exact Hacc;
    now rewrite kget_set, Hk.
Qed.

(** X17. A radio group is described once, under the shared name: when no
    checkbox and no text area of the form bears that name, the entry has
    kind [radio], the [required] flag of the group's first button, and as
    options the [value] attributes of all its buttons in document order,
    duplicates and missing values included; text inputs and selects of the
    same name are overridden. *)
Theorem radio_group_entry (soup : list element) (n : string)
    (first : element) (rest : list element) :
  n <> EmptyString ->
  radio_group n soup = first :: rest ->
  (forall e, In e (find_inputs ["checkbox"] soup) -> e_name e <> Some n) ->
  (forall e, In e (find_tag TTextarea soup) -> e_name e <> Some n) ->
  dict_get pykey_eqb (Some n) (extract_form_data (Some soup))
  = Some {| f_type := "radio"; f_required := aria_required first;
            f_max_length := None; f_placeholder := None;
            f_options := map e_value (first :: rest);
            f_value := None; f_purpose := None |}.
Proof.
  intros Hn Hgroup Hcb Hta. unfold extract_form_data.
  rewrite (textarea_fold_other _ _ _ Hta), (checkbox_fold_other _ _ _ Hcb).
  rewrite (dict_update_get _ _ _ (radio_groups_nodup _)).
  rewrite (radio_fold_get n _ [] Hn). unfold radio_group in Hgroup.
  rewrite Hgroup. cbn [dict_get]. now rewrite fold_add_option.
Qed.

Lemma radio_group_entry_witness :
  dict_get pykey_eqb (Some "plan") (extract_form_data (Some survey_form))
  = Some {| f_type := "radio"; f_required := true;
            f_max_length := None; f_placeholder := None;
            f_options := [Some "basic"; Some "pro"];
            f_value := None; f_purpose := None |}.
Proof.
  refine (radio_group_entry survey_form "plan" _ _ _ eq_refl _ _).
  - discriminate.
  - intros e [<-|[<-|[]]]; discriminate.
  - intros e [].
Defined.

(** X18. Of several checkboxes with one name the last one is described:
    when no later checkbox and no text area bears the name, the entry has
    kind [checkbox], the [required] flag and [value] of that checkbox, and
    the agreement purpose exactly when the name contains [agree] or
    [consent] (in any case) or the word for consent. *)
Theorem last_checkbox_entry (soup before after : list element)
    (e : element) (n : string) :
  find_inputs ["checkbox"] soup = before ++ e :: after ->
  e_name e = Some n ->
  (forall e', In e' after -> e_name e' <> Some n) ->
  (forall t, In t (find_tag TTextarea soup) -> e_name t <> Some n) ->
  dict_get pykey_eqb (Some n) (extract_form_data (Some soup))
  = Some {| f_type := "checkbox"; f_required := aria_required e;
            f_max_length := None; f_placeholder := None; f_options := [];
            f_value := e_value e;
            f_purpose := if agreement_name n then Some "agreement" else None |}.
Proof.
  intros Hsplit Hname Hafter Hta. unfold extract_form_data.
  rewrite (textarea_fold_other _ _ _ Hta), Hsplit, fold_left_app.
  cbn [fold_left]. rewrite (checkbox_fold_other _ _ _ Hafter).
  rewrite checkbox_step_eq, kget_set, Hname, pykey_eqb_refl.
  unfold checkbox_info. now rewrite Hname.
Qed.

Lemma last_checkbox_entry_witness :
  dict_get pykey_eqb (Some "agree_terms") (extract_form_data (Some survey_form))
  = Some {| f_type := "checkbox"; f_required := true;
            f_max_length := None; f_placeholder := None; f_options := [];
            f_value := Some "yes"; f_purpose := Some "agreement" |}.
Proof.
  refine (last_checkbox_entry survey_form [_] [] _ "agree_terms"
            eq_refl eq_refl _ _).
  - intros e' [].
  - intros t [].
Defined.

(** ** More on form filling *)

Section FillFormExtras.
Variable R : Type.
Variable drive : string -> string -> jvalue -> R -> outcome R.
Variable clickable : string -> bool.

Local Abbreviation box name p := (dict_get String.eqb name (checkboxes p)).




(** X21. Resolved inputs whose fields are not in the catalog (a cached
    mapping that no longer fits the form, or a form that was not found), or
    are of kind [captcha], are passed over: the loop ends without an
    exception and leaves the page as it was, whatever the driver would do. *)
Theorem stale_inputs_change_nothing (form_data : catalog) (items : input_dict)
    (p : page R) :
  (forall name value, In (name, value) items ->
     match dict_get pykey_eqb (Some name) form_data with
     | None => True
     | Some fi => f_type fi = "captcha"
     end) ->
  fill_fields R drive clickable form_data items p = (p, None).
Proof.
  induction items as [|[name value] items IH]; intros H; [reflexivity|].
  cbn [fill_fields].
  assert (Hstep : fill_field R drive clickable form_data p (name, value) = Ok p).
  { specialize (H name value (or_introl eq_refl)). unfold fill_field.
    destruct (dict_get pykey_eqb (Some name) form_data) as [fi|]; [|reflexivity].
    now rewrite H. }
  rewrite Hstep. apply IH. intros n v Hin. apply (H n v). now right.
Qed.
End FillFormExtras.



Lemma stale_inputs_change_nothing_witness :
  fill_fields unit (fun _ _ _ _ => Raise TimeoutError) (fun _ => false)
    recaptcha_form_catalog
    [("old_field", JStr "x"); ("g-recaptcha-response", JStr "token")]
    newsletter_page
  = (newsletter_page, None).
Proof.
  apply (stale_inputs_change_nothing unit (fun _ _ _ _ => Raise TimeoutError)
           (fun _ => false)).
  intros name value [[= <- <-]|[[= <- <-]|[]]]; reflexivity.
Defined.
